(** * hd-idle: the idle-detection and spin-down engine of [hdidle.go]

  A shallow embedding of package [main] of hd-idle.  The three package
  level variables ([previousSnapshots], [now], [lastNow]) form the machine
  state, the packages the engine calls ([time], [os], [diskstats], [io],
  [sgio]) are a host interface, and every function of the engine is a
  computation in a state monad over that machine that may stop the
  process. *)

From Stdlib Require Import ZArith Lia.
From stdpp Require Import base list strings.

Local Open Scope Z_scope.

(** ** Time

  A [time.Time] is an instant counted in nanoseconds from Go's zero
  [Time]; a [time.Duration] is a signed 64 bit count of nanoseconds.
  [Time.Sub] saturates at the two ends of [Duration]. *)

Abbreviation Time := Z (only parsing).
Abbreviation Duration := Z (only parsing).

Definition maxDuration : Duration := 2 ^ 63 - 1.
Definition minDuration : Duration := - 2 ^ 63.

Definition Sub (t u : Time) : Duration :=
  if t - u >? maxDuration then maxDuration
  else if t - u <? minDuration then minDuration
  else t - u.

Definition zeroTime : Time := 0.

(** ** Constants *)

Definition SCSI : string := "scsi".
Definition ATA : string := "ata".

Definition nl : string := String (Ascii.ascii_of_nat 10) "".

(** ** Configuration *)

Module DefaultConf.
Record t := mk {
  Idle : Duration;
  CommandType : string;
  Debug : bool;
  LogFile : string;
  SymlinkPolicy : Z
}.
End DefaultConf.

Module DeviceConf.
Record t := mk {
  Name : string;
  GivenName : string;
  Idle : Duration;
  CommandType : string
}.

Definition set_Name (v : string) (d : t) : t :=
  mk v (GivenName d) (Idle d) (CommandType d).
End DeviceConf.

Module Config.
Record t := mk {
  Devices : list DeviceConf.t;
  Defaults : DefaultConf.t;
  SkewTime : Duration
}.

Definition set_Devices (v : list DeviceConf.t) (c : t) : t :=
  mk v (Defaults c) (SkewTime c).
End Config.

(** ** Device runtime state *)

Module DiskStats.
(** Modelled from the spec: the struct [diskstats.DiskStats] is declared in
    package [diskstats], outside src/.  Its fields are the ones
    [hdidle.go] reads and writes; the two counters are integers that the
    engine only compares for equality. *)
Record t := mk {
  Name : string;
  IdleTime : Duration;
  CommandType : string;
  Reads : Z;
  Writes : Z;
  SpinDownAt : Time;
  SpinUpAt : Time;
  LastIoAt : Time;
  SpunDown : bool
}.

Definition set_Reads (v : Z) (d : t) : t :=
  mk (Name d) (IdleTime d) (CommandType d) v (Writes d)
     (SpinDownAt d) (SpinUpAt d) (LastIoAt d) (SpunDown d).
Definition set_Writes (v : Z) (d : t) : t :=
  mk (Name d) (IdleTime d) (CommandType d) (Reads d) v
     (SpinDownAt d) (SpinUpAt d) (LastIoAt d) (SpunDown d).
Definition set_SpinDownAt (v : Time) (d : t) : t :=
  mk (Name d) (IdleTime d) (CommandType d) (Reads d) (Writes d)
     v (SpinUpAt d) (LastIoAt d) (SpunDown d).
Definition set_SpinUpAt (v : Time) (d : t) : t :=
  mk (Name d) (IdleTime d) (CommandType d) (Reads d) (Writes d)
     (SpinDownAt d) v (LastIoAt d) (SpunDown d).
Definition set_LastIoAt (v : Time) (d : t) : t :=
  mk (Name d) (IdleTime d) (CommandType d) (Reads d) (Writes d)
     (SpinDownAt d) (SpinUpAt d) v (SpunDown d).
Definition set_SpunDown (v : bool) (d : t) : t :=
  mk (Name d) (IdleTime d) (CommandType d) (Reads d) (Writes d)
     (SpinDownAt d) (SpinUpAt d) (LastIoAt d) v.
End DiskStats.

(** ** What the process does to the outside

  The text of a log line is kept as the arguments of its [Sprintf]: the
  rendering of dates and of [int(d.Seconds())] is left to the sink.  The
  field names of [TxtSpinup] are the labels of the format string. *)

Inductive LogText :=
| TxtSymlink (givenName realPath : string)
| TxtSpinup (at_ : Time) (disk : string) (running stopped : Duration)
| TxtSpinupAfterSleep (at_ : Time) (disk : string).

Inductive Event :=
| Console (text : string)
| ConsoleDebug (ds : DiskStats.t) (idleDuration : Duration)
| FileLine (file : string) (text : LogText)
| CallRealPath (givenName : string)
| CallStopScsi (device : string)
| CallStopAta (device : string).

Inductive Fatal :=
| CannotOpen (file err : string)
| CannotWrite (file err : string)
| CannotClose (file err : string).

Inductive Halt :=
| LogFatal (why : Fatal)
| IndexOutOfRange.

(** ** The host

  Everything the engine asks of its collaborators: the clock and the file
  calls of Go's library, and the packages [diskstats], [io] and [sgio],
  which are outside src/ and are taken as parameters.  Each call may
  depend on and change the world.  An [error] is [None] for [nil] and
  [Some msg] with [msg] the text of [err.Error()]. *)

Definition error := option string.

Class Host (World : Type) := {
  time_Now : World -> Time * World;
  diskstats_Snapshot : World -> list DiskStats.t * World;
  io_RealPath : string -> World -> (string * error) * World;
  sgio_StopScsiDevice : string -> World -> error * World;
  sgio_StopAtaDevice : string -> World -> error * World;
  os_OpenFile : string -> World -> error * World;
  file_WriteString : string -> LogText -> World -> error * World;
  file_Close : string -> World -> error * World
}.

(** ** The machine *)

Record Machine (World : Type) := mkMachine {
  previousSnapshots : list DiskStats.t;
  now : Time;
  lastNow : Time;
  world : World;
  trace : list Event
}.
Arguments mkMachine {World}.
Arguments previousSnapshots {World}.
Arguments now {World}.
Arguments lastNow {World}.
Arguments world {World}.
Arguments trace {World}.

Inductive Outcome (World A : Type) :=
| Ok (a : A) (m : Machine World)
| Stop (h : Halt) (m : Machine World).
Arguments Ok {World A}.
Arguments Stop {World A}.

Definition final {World A} (o : Outcome World A) : Machine World :=
  match o with Ok _ m => m | Stop _ m => m end.

Definition halted {World A} (o : Outcome World A) : option Halt :=
  match o with Ok _ _ => None | Stop h _ => Some h end.

Section Engine.
Context {World : Type} `{Host World}.

Definition M (A : Type) : Type := Machine World -> Outcome World A.

#[local] Instance M_ret : MRet M := fun A a m => Ok a m.
#[local] Instance M_bind : MBind M := fun A B f c m =>
  match c m with
  | Ok a m' => f a m'
  | Stop h m' => Stop h m'
  end.

Definition stop {A} (h : Halt) : M A := fun m => Stop h m.

Definition emit (e : Event) : M unit := fun m =>
  Ok tt (mkMachine (previousSnapshots m) (now m) (lastNow m) (world m)
                   (trace m ++ [e])).

Definition ask {A} (f : World -> A * World) : M A := fun m =>
  let (a, w) := f (world m) in
  Ok a (mkMachine (previousSnapshots m) (now m) (lastNow m) w (trace m)).

Definition getNow : M Time := fun m => Ok (now m) m.
Definition getLastNow : M Time := fun m => Ok (lastNow m) m.
Definition setNow (t : Time) : M unit := fun m =>
  Ok tt (mkMachine (previousSnapshots m) t (lastNow m) (world m) (trace m)).
Definition setLastNow (t : Time) : M unit := fun m =>
  Ok tt (mkMachine (previousSnapshots m) (now m) t (world m) (trace m)).

Definition getSnapshots : M (list DiskStats.t) := fun m =>
  Ok (previousSnapshots m) m.
Definition setSnapshots (l : list DiskStats.t) : M unit := fun m =>
  Ok tt (mkMachine l (now m) (lastNow m) (world m) (trace m)).

(** [previousSnapshots[i]] as a value; an index out of range panics. *)
Definition load (i : Z) : M DiskStats.t :=
  l ← getSnapshots;
  if i <? 0 then stop IndexOutOfRange
  else match l !! Z.to_nat i with
       | Some ds => mret ds
       | None => stop IndexOutOfRange
       end.

(** [previousSnapshots[i].F = v], with [f] the field update. *)
Definition store (i : Z) (f : DiskStats.t -> DiskStats.t) : M unit :=
  ds ← load i;
  l ← getSnapshots;
  setSnapshots (<[Z.to_nat i := f ds]> l).

(** *** logToFile *)

Definition logToFile (file : string) (text : LogText) : M unit :=
  if (String.length file =? 0)%nat then mret tt
  else
    err ← ask (os_OpenFile file);
    match err with
    | Some e => stop (LogFatal (CannotOpen file e))
    | None =>
        err ← ask (file_WriteString file text);
        match err with
        | Some e => stop (LogFatal (CannotWrite file e))
        | None =>
            emit (FileLine file text);;
            err ← ask (file_Close file);
            match err with
            | Some e => stop (LogFatal (CannotClose file e))
            | None => mret tt
            end
        end
    end.

(** *** logSpinup, logSpinupAfterSleep *)

Definition logSpinup (ds : DiskStats.t) (file : string) : M unit :=
  now' ← ask time_Now;
  logToFile file
    (TxtSpinup now' (DiskStats.Name ds)
       (Sub (DiskStats.SpinDownAt ds) (DiskStats.SpinUpAt ds))
       (Sub now' (DiskStats.SpinDownAt ds))).

Definition logSpinupAfterSleep (name file : string) : M unit :=
  t ← getNow;
  logToFile file (TxtSpinupAfterSleep t name).

(** *** spindownDisk *)

Definition spindownDisk (device command : string) : M error :=
  emit (Console (device +:+ " spindown" +:+ nl));;
  if String.eqb command SCSI then
    emit (CallStopScsi device);;
    err ← ask (sgio_StopScsiDevice device);
    match err with
    | Some e =>
        mret (Some ("cannot spindown scsi disk " +:+ device +:+ ":" +:+ nl
                      +:+ e +:+ nl))
    | None => mret None
    end
  else if String.eqb command ATA then
    emit (CallStopAta device);;
    err ← ask (sgio_StopAtaDevice device);
    match err with
    | Some e =>
        mret (Some ("cannot spindown ata disk " +:+ device +:+ ":" +:+ nl
                      +:+ e +:+ nl))
    | None => mret None
    end
  else mret None.

(** *** deviceConfig

    The result is a pointer, [None] standing for [nil]. *)

Fixpoint deviceConfig_loop (devices : list DeviceConf.t) (diskName : string)
  : option DeviceConf.t :=
  match devices with
  | [] => None
  | device :: rest =>
      if String.eqb (DeviceConf.Name device) diskName then Some device
      else deviceConfig_loop rest diskName
  end.

Definition deviceConfig (diskName : string) (config : Config.t)
  : option DeviceConf.t :=
  match deviceConfig_loop (Config.Devices config) diskName with
  | Some device => Some device
  | None =>
      Some (DeviceConf.mk diskName ""
              (DefaultConf.Idle (Config.Defaults config))
              (DefaultConf.CommandType (Config.Defaults config)))
  end.

(** *** initDevice *)

Definition initDevice (stats : DiskStats.t) (config : Config.t)
  : M DiskStats.t :=
  let idle := DefaultConf.Idle (Config.Defaults config) in
  let command := DefaultConf.CommandType (Config.Defaults config) in
  let deviceConf := deviceConfig (DiskStats.Name stats) config in
  let idle :=
    match deviceConf with Some d => DeviceConf.Idle d | None => idle end in
  let command :=
    match deviceConf with
    | Some d => DeviceConf.CommandType d
    | None => command
    end in
  lastIoAt ← ask time_Now;
  spinUpAt ← ask time_Now;
  mret (DiskStats.mk (DiskStats.Name stats) idle command
          (DiskStats.Reads stats) (DiskStats.Writes stats)
          zeroTime spinUpAt lastIoAt false).

(** *** previousDiskStatsIndex *)

Fixpoint previousDiskStatsIndex_loop (i : Z) (l : list DiskStats.t)
    (diskName : string) : Z :=
  match l with
  | [] => -1
  | stats :: rest =>
      if String.eqb (DiskStats.Name stats) diskName then i
      else previousDiskStatsIndex_loop (i + 1) rest diskName
  end.

Definition previousDiskStatsIndex (diskName : string) : M Z :=
  l ← getSnapshots;
  mret (previousDiskStatsIndex_loop 0 l diskName).

(** *** updateState

    The body of [updateState] for a device that is already tracked is two
    blocks in sequence, named here so that the state between them can be
    spoken of: [skewCheck], the comparison of [now] with [lastNow] (the
    suspend detection), and [reconcile], from the read of
    [previousSnapshots[dsi]] into [ds] to the debug line. *)

Definition skewCheck (dsi : Z) (config : Config.t) : M unit :=
  t ← getNow;
  lastT ← getLastNow;
  if Sub t lastT >? Config.SkewTime config then
    store dsi (DiskStats.set_SpinUpAt t);;
    store dsi (DiskStats.set_LastIoAt t);;
    store dsi (DiskStats.set_SpunDown false);;
    d ← load dsi;
    logSpinupAfterSleep (DiskStats.Name d)
      (DefaultConf.LogFile (Config.Defaults config))
  else mret tt.

Definition reconcile (dsi : Z) (tmp : DiskStats.t) (config : Config.t)
  : M unit :=
  t ← getNow;
  ds ← load dsi;
  (if (DiskStats.Writes ds =? DiskStats.Writes tmp)
      && (DiskStats.Reads ds =? DiskStats.Reads tmp) then
     if negb (DiskStats.SpunDown ds) then
       let idleDuration := Sub t (DiskStats.LastIoAt ds) in
       if negb (DiskStats.IdleTime ds =? 0)
          && (idleDuration >? DiskStats.IdleTime ds) then
         let device := "/dev/" +:+ DiskStats.Name ds in
         err ← spindownDisk device (DiskStats.CommandType ds);
         match err with
         | Some e => emit (Console (e +:+ nl))
         | None => mret tt
         end;;
         store dsi (DiskStats.set_SpinDownAt t);;
         store dsi (DiskStats.set_SpunDown true)
       else mret tt
     else mret tt
   else
     (if DiskStats.SpunDown ds then
        emit (Console (DiskStats.Name ds +:+ " spinup" +:+ nl));;
        logSpinup ds (DefaultConf.LogFile (Config.Defaults config));;
        store dsi (DiskStats.set_SpinUpAt t)
      else mret tt);;
     store dsi (DiskStats.set_Reads (DiskStats.Reads tmp));;
     store dsi (DiskStats.set_Writes (DiskStats.Writes tmp));;
     store dsi (DiskStats.set_LastIoAt t);;
     store dsi (DiskStats.set_SpunDown false));;
  if DefaultConf.Debug (Config.Defaults config) then
    ds ← load dsi;
    emit (ConsoleDebug ds (Sub t (DiskStats.LastIoAt ds)))
  else mret tt.

Definition updateState (tmp : DiskStats.t) (config : Config.t) : M unit :=
  dsi ← previousDiskStatsIndex (DiskStats.Name tmp);
  if dsi <? 0 then
    d ← initDevice tmp config;
    l ← getSnapshots;
    setSnapshots (l ++ [d])
  else
    skewCheck dsi config;;
    reconcile dsi tmp config.

(** *** resolveSymlinks

    The configuration is reached through a pointer and written in place;
    here the updated configuration is the result. *)

Fixpoint resolveSymlinks_loop (range : list nat) (config : Config.t)
  : M Config.t :=
  match range with
  | [] => mret config
  | i :: rest =>
      match Config.Devices config !! i with
      | None => stop IndexOutOfRange
      | Some device =>
          config ←
            (if (String.length (DeviceConf.Name device) =? 0)%nat then
               emit (CallRealPath (DeviceConf.GivenName device));;
               r ← ask (io_RealPath (DeviceConf.GivenName device));
               let '(realPath, err) := r in
               match err with
               | None =>
                   let config :=
                     Config.set_Devices
                       (<[i := DeviceConf.set_Name realPath device]>
                          (Config.Devices config)) config in
                   logToFile (DefaultConf.LogFile (Config.Defaults config))
                     (TxtSymlink (DeviceConf.GivenName device) realPath);;
                   mret config
               | Some _ =>
                   (if DefaultConf.Debug (Config.Defaults config) then
                      emit (Console ("Cannot resolve sysmlink "
                                       +:+ DeviceConf.GivenName device
                                       +:+ nl))
                    else mret tt);;
                   mret config
               end
             else mret config);
          resolveSymlinks_loop rest config
      end
  end.

Definition resolveSymlinks (config : Config.t) : M Config.t :=
  if DefaultConf.SymlinkPolicy (Config.Defaults config) =? 0 then
    mret config
  else
    resolveSymlinks_loop (seq 0 (length (Config.Devices config))) config.

(** *** ObserveDiskActivity *)

Fixpoint ObserveDiskActivity_loop (actualSnapshot : list DiskStats.t)
    (config : Config.t) : M unit :=
  match actualSnapshot with
  | [] => mret tt
  | stats :: rest =>
      updateState stats config;;
      ObserveDiskActivity_loop rest config
  end.

Definition ObserveDiskActivity (config : Config.t) : M Config.t :=
  actualSnapshot ← ask diskstats_Snapshot;
  t ← ask time_Now;
  setNow t;;
  config ← resolveSymlinks config;
  ObserveDiskActivity_loop actualSnapshot config;;
  t ← getNow;
  setLastNow t;;
  mret config.

End Engine.

(** ** A scripted host

  A host whose answers are fixed in advance: the clock advances by [tick]
  at every reading, and each capability answers with the recorded
  result. *)

Module Script.
Record World := mk {
  clock : Time;
  tick : Duration;
  snapshot : list DiskStats.t;
  realPath : string * error;
  stopScsi : error;
  stopAta : error;
  openFile : error;
  writeString : error;
  closeFile : error
}.

Definition advance (w : World) : World :=
  mk (clock w + tick w) (tick w) (snapshot w) (realPath w) (stopScsi w)
     (stopAta w) (openFile w) (writeString w) (closeFile w).

#[global] Instance host : Host World := {|
  time_Now w := (clock w, advance w);
  diskstats_Snapshot w := (snapshot w, w);
  io_RealPath _ w := (realPath w, w);
  sgio_StopScsiDevice _ w := (stopScsi w, w);
  sgio_StopAtaDevice _ w := (stopAta w, w);
  os_OpenFile _ w := (openFile w, w);
  file_WriteString _ _ w := (writeString w, w);
  file_Close _ w := (closeFile w, w)
|}.

(** A host on which every call succeeds. *)
Definition quiet (t : Time) : World :=
  mk t 1 [] ("", None) None None None None None.
End Script.

(** ** A host that resolves every name

    Its clock is the world; every symbolic name resolves to "/dev/sdb" and
    every other call succeeds. *)

Module Links.
Record World := mk { clock : Time }.

#[global] Instance host : Host World := {|
  time_Now w := (clock w, mk (clock w + 1));
  diskstats_Snapshot w := ([], w);
  io_RealPath _ w := (("/dev/sdb", None), w);
  sgio_StopScsiDevice _ w := (None, w);
  sgio_StopAtaDevice _ w := (None, w);
  os_OpenFile _ w := (None, w);
  file_WriteString _ _ w := (None, w);
  file_Close _ w := (None, w)
|}.

(** A machine with nothing tracked yet. *)
Definition start : Machine World := mkMachine [] 0 0 (mk 0) [].
End Links.

(** ** A small installation

    One default configuration (idle 2 s, skew 120 s, protocol "scsi"), with
    and without a log file, and a few machines over the scripted host. *)

Module Example.
Definition second : Duration := 1000000000.

Definition defaults (logFile : string) (debug : bool) : DefaultConf.t :=
  DefaultConf.mk (2 * second) SCSI debug logFile 0.

Definition cfg : Config.t :=
  Config.mk [] (defaults "" false) (120 * second).

Definition cfgLog : Config.t :=
  Config.mk [] (defaults "/var/log/hd-idle.log" false) (120 * second).

(** A snapshot entry: only name and counters are filled in. *)
Definition entry (name : string) (reads writes : Z) : DiskStats.t :=
  DiskStats.mk name 0 "" reads writes zeroTime zeroTime zeroTime false.

(** "sda" as created at time 0 with reads = 10 and writes = 5. *)
Definition sda : DiskStats.t :=
  DiskStats.mk "sda" (2 * second) SCSI 10 5 zeroTime 0 0 false.

(** "sda" spun down at 10 s. *)
Definition sdaDown : DiskStats.t :=
  DiskStats.mk "sda" (2 * second) SCSI 10 5 (10 * second) 0 0 true.

Definition sdb : DiskStats.t :=
  DiskStats.mk "sdb" (2 * second) SCSI 7 7 zeroTime 0 0 false.

(** "sdx" has a command type the engine does not know. *)
Definition sdx : DiskStats.t :=
  DiskStats.mk "sdx" (2 * second) "nvme" 1 1 zeroTime 0 0 false.

(** A host whose clock shows [t] and advances by [tick] at each reading,
    whose sampler returns [snapshot] and whose stop capabilities answer
    [stop]. *)
Definition host (t : Time) (tick : Duration) (snapshot : list DiskStats.t)
    (stop : error) : Script.World :=
  Script.mk t tick snapshot ("", Some "no such file") stop stop
    None None None.

(** The machine in a cycle started at [t], the previous one at [last]. *)
Definition during (l : list DiskStats.t) (t last : Time)
    (w : Script.World) : Machine Script.World :=
  mkMachine l t last w [].

(** 3 s after the creation of "sda", one second after the last cycle. *)
Definition m3 : Machine Script.World :=
  during [sda] (3 * second) (1 * second)
    (host (3 * second) 1 [] (Some "I/O error")).

(** 15 s after "sda" was created, 5 s after it was spun down. *)
Definition m15 : Machine Script.World :=
  during [sdaDown; sdb] (15 * second) (14 * second)
    (host (15 * second) 0 [] None).

(** Between two cycles: the last one started at 14 s, the clock shows
    1000 s and the sampler sees "sdb" only. *)
Definition asleep : Machine Script.World :=
  during [sdaDown; sdb] (14 * second) (14 * second)
    (host (1000 * second) 1 [entry "sdb" 7 7] None).

(** The same within the cycle started at 1000 s. *)
Definition woken : Machine Script.World :=
  during [sdaDown; sdb] (1000 * second) (14 * second)
    (host (1000 * second) 1 [] None).

(** Before the first cycle: nothing tracked, the sampler sees "sda". *)
Definition fresh : Machine Script.World :=
  during [] 0 0 (host 100 1 [entry "sda" 10 5] None).

Definition mx : Machine Script.World :=
  during [sdx] (3 * second) (1 * second) (host (3 * second) 1 [] None).

(** A configuration with one override still to be resolved. *)
Definition cfgLink : Config.t :=
  Config.mk [DeviceConf.mk "" "/dev/disk/by-label/backup" second ATA]
    (DefaultConf.mk (2 * second) SCSI true "" 1) (120 * second).

Definition cfgOverride : Config.t :=
  Config.mk [DeviceConf.mk "sda" "sda" second ATA]
    (defaults "" false) (120 * second).
End Example.

(** ** Vocabulary

    The values and outputs the facts below are stated with. *)

Section Vocabulary.
Context {World : Type} `{Host World}.

Implicit Types (m : Machine World) (ds tmp : DiskStats.t)
  (config : Config.t) (l : list DiskStats.t).

(** The machine [m] with its retained list replaced. *)
Definition withSnapshots l m : Machine World :=
  mkMachine l (now m) (lastNow m) (world m) (trace m).

(** The machine [m] after more output. *)
Definition withTrace (new : list Event) m : Machine World :=
  mkMachine (previousSnapshots m) (now m) (lastNow m) (world m)
    (trace m ++ new).

(** What the stop capability chosen by [command] answers in world [w]. *)
Definition stopAnswer (device command : string) (w : World)
  : error * World :=
  if String.eqb command SCSI then sgio_StopScsiDevice device w
  else if String.eqb command ATA then sgio_StopAtaDevice device w
  else (None, w).

(** The capability calls [spindownDisk] makes for [command]. *)
Definition stopCall (device command : string) : list Event :=
  if String.eqb command SCSI then [CallStopScsi device]
  else if String.eqb command ATA then [CallStopAta device]
  else [].

Definition stopError (device command e : string) : string :=
  "cannot spindown " +:+ command +:+ " disk " +:+ device +:+ ":" +:+ nl
    +:+ e +:+ nl.

Definition spindownResult (device command : string) (w : World) : error :=
  match (stopAnswer device command w).1 with
  | Some e => Some (stopError device command e)
  | None => None
  end.

(** The line [logToFile] leaves in [file], when a file is configured. *)
Definition logged (file : string) (text : LogText) : list Event :=
  if (String.length file =? 0)%nat then [] else [FileLine file text].

(** The state a device is forced to when a suspend is assumed. *)
Definition afterSleep (t : Time) ds : DiskStats.t :=
  DiskStats.set_SpunDown false
    (DiskStats.set_LastIoAt t (DiskStats.set_SpinUpAt t ds)).

Definition skewed config m : Prop :=
  Sub (now m) (lastNow m) > Config.SkewTime config.

(** The debug line for the state [ds] of a device at time [t]. *)
Definition debugLine config (t : Time) ds : list Event :=
  if DefaultConf.Debug (Config.Defaults config)
  then [ConsoleDebug ds (Sub t (DiskStats.LastIoAt ds))] else [].

(** The decision taken on a running device whose counters stand still. *)
Definition idleExceeded (t : Time) ds : Prop :=
  DiskStats.IdleTime ds <> 0 /\
  Sub t (DiskStats.LastIoAt ds) > DiskStats.IdleTime ds.

Definition sameCounters ds tmp : Prop :=
  DiskStats.Writes ds = DiskStats.Writes tmp /\
  DiskStats.Reads ds = DiskStats.Reads tmp.

Definition spunDownAt (t : Time) ds : DiskStats.t :=
  DiskStats.set_SpunDown true (DiskStats.set_SpinDownAt t ds).

Definition withIo (t : Time) tmp ds : DiskStats.t :=
  DiskStats.set_SpunDown false
    (DiskStats.set_LastIoAt t
       (DiskStats.set_Writes (DiskStats.Writes tmp)
          (DiskStats.set_Reads (DiskStats.Reads tmp) ds))).

(** What [spindownDisk] and the report of its error put out. *)
Definition spindownTrace (device command : string) (w : World)
  : list Event :=
  Console (device +:+ " spindown" +:+ nl) :: stopCall device command ++
  match spindownResult device command w with
  | Some e => [Console (e +:+ nl)]
  | None => []
  end.

(** The state a first sighting creates from two readings of the clock. *)
Definition created (stats : DiskStats.t) config (lastIoAt spinUpAt : Time)
  : DiskStats.t :=
  match deviceConfig (DiskStats.Name stats) config with
  | Some d =>
      DiskStats.mk (DiskStats.Name stats) (DeviceConf.Idle d)
        (DeviceConf.CommandType d) (DiskStats.Reads stats)
        (DiskStats.Writes stats) zeroTime spinUpAt lastIoAt false
  | None =>
      DiskStats.mk (DiskStats.Name stats)
        (DefaultConf.Idle (Config.Defaults config))
        (DefaultConf.CommandType (Config.Defaults config))
        (DiskStats.Reads stats) (DiskStats.Writes stats)
        zeroTime spinUpAt lastIoAt false
  end.

(** The device an output is about: the device of a stop call, the disk of
    a spin-up or suspend line, the state of a debug line. *)
Definition about (n : string) (e : Event) : Prop :=
  match e with
  | CallStopScsi d | CallStopAta d => d = "/dev/" +:+ n
  | FileLine _ (TxtSpinup _ d _ _) => d = n
  | FileLine _ (TxtSpinupAfterSleep _ d) => d = n
  | FileLine _ (TxtSymlink _ _) => False
  | ConsoleDebug ds _ => DiskStats.Name ds = n
  | Console _ => True
  | CallRealPath _ => False
  end.

(** [ds'] is [ds] as far as what was resolved at creation goes. *)
Definition cached ds ds' : Prop :=
  DiskStats.Name ds' = DiskStats.Name ds /\
  DiskStats.IdleTime ds' = DiskStats.IdleTime ds /\
  DiskStats.CommandType ds' = DiskStats.CommandType ds.

(** Every state of [l] is still in [l'] at its index, with what was cached,
    and untouched unless its name is one of [P]. *)
Definition keepsStates (P : string -> Prop) l l' : Prop :=
  forall (i : nat) ds, l !! i = Some ds ->
    exists ds', l' !! i = Some ds' /\ cached ds ds' /\
      (~ P (DiskStats.Name ds) -> ds' = ds).

(** What a run of the engine over entries named in [P] may change. *)
Definition evolves (P : string -> Prop) m m' : Prop :=
  now m' = now m /\ lastNow m' = lastNow m /\
  keepsStates P (previousSnapshots m) (previousSnapshots m') /\
  exists new, trace m' = trace m ++ new /\
    Forall (fun e => exists n, P n /\ about n e) new.

(** A configured device whose canonical name is still empty. *)
Definition unresolved (d : DeviceConf.t) : Prop :=
  String.length (DeviceConf.Name d) = 0%nat.

(** [config'] is [config] with some of the empty canonical names filled
    in: nothing else differs. *)
Definition resolves config config' : Prop :=
  Config.Defaults config' = Config.Defaults config /\
  Config.SkewTime config' = Config.SkewTime config /\
  length (Config.Devices config') = length (Config.Devices config) /\
  forall (i : nat) d, Config.Devices config !! i = Some d ->
    exists d', Config.Devices config' !! i = Some d' /\
      DeviceConf.GivenName d' = DeviceConf.GivenName d /\
      DeviceConf.Idle d' = DeviceConf.Idle d /\
      DeviceConf.CommandType d' = DeviceConf.CommandType d /\
      (~ unresolved d -> d' = d).

(** The outputs of [resolveSymlinks]: each is for a configured device
    whose canonical name is empty. *)
Definition symlinkOutput config (e : Event) : Prop :=
  exists d, d ∈ Config.Devices config /\ unresolved d /\
    match e with
    | CallRealPath g => g = DeviceConf.GivenName d
    | FileLine f (TxtSymlink g _) =>
        f = DefaultConf.LogFile (Config.Defaults config) /\
        g = DeviceConf.GivenName d
    | Console s =>
        DefaultConf.Debug (Config.Defaults config) = true /\
        s = "Cannot resolve sysmlink " +:+ DeviceConf.GivenName d +:+ nl
    | _ => False
    end.

(** The diagnostic of a failed resolution. *)
Definition diagnostic config (d : DeviceConf.t) : list Event :=
  if DefaultConf.Debug (Config.Defaults config)
  then [Console ("Cannot resolve sysmlink " +:+ DeviceConf.GivenName d
                   +:+ nl)]
  else [].

(** *** The state machine of one device

    What a call of [updateState] that runs to its end makes of the state
    [ds] of a tracked device, as a function: [seen] is the state the
    counter comparison reads, [reconciled] the state after it. *)

Definition skewedb config m : bool :=
  Sub (now m) (lastNow m) >? Config.SkewTime config.

Definition sameCountersb ds tmp : bool :=
  (DiskStats.Writes ds =? DiskStats.Writes tmp)
  && (DiskStats.Reads ds =? DiskStats.Reads tmp).

Definition idleExceededb (t : Time) ds : bool :=
  negb (DiskStats.IdleTime ds =? 0)
  && (Sub t (DiskStats.LastIoAt ds) >? DiskStats.IdleTime ds).

Definition seen config m ds : DiskStats.t :=
  if skewedb config m then afterSleep (now m) ds else ds.

Definition reconciled (t : Time) tmp ds : DiskStats.t :=
  if sameCountersb ds tmp then
    if negb (DiskStats.SpunDown ds) && idleExceededb t ds
    then spunDownAt t ds else ds
  else
    withIo t tmp
      (if DiskStats.SpunDown ds then DiskStats.set_SpinUpAt t ds else ds).

Definition nextState config m tmp ds : DiskStats.t :=
  reconciled (now m) tmp (seen config m ds).

(** A state marked spun down has a threshold that is not zero and that the
    time from its last I/O to its spin-down exceeded. *)
Definition justified ds : Prop :=
  DiskStats.SpunDown ds = true ->
  DiskStats.IdleTime ds <> 0 /\
  Sub (DiskStats.SpinDownAt ds) (DiskStats.LastIoAt ds)
    > DiskStats.IdleTime ds.

(** The names of the retained states, in order. *)
Definition names l : list string := DiskStats.Name <$> l.

(** The override entries whose canonical name is set. *)
Definition resolvedOnly (devices : list DeviceConf.t) : list DeviceConf.t :=
  List.filter
    (fun d => negb (String.length (DeviceConf.Name d) =? 0)%nat) devices.

(** An unresolved entry gets the path [path] gives for its given name. *)
Definition filled (path : string -> string) (d : DeviceConf.t)
  : DeviceConf.t :=
  if (String.length (DeviceConf.Name d) =? 0)%nat
  then DeviceConf.set_Name (path (DeviceConf.GivenName d)) d else d.

(** [ds], at index [k], is the first state of [l] called [n]. *)
Definition firstNamed l (n : string) (k : nat) ds : Prop :=
  l !! k = Some ds /\ DiskStats.Name ds = n /\
  forall (j : nat) d, (j < k)%nat -> l !! j = Some d ->
    DiskStats.Name d <> n.

(** The state [d] is what a first sighting makes of the entry [tmp]. *)
Definition freshFrom tmp d : Prop :=
  DiskStats.Name d = DiskStats.Name tmp /\
  DiskStats.Reads d = DiskStats.Reads tmp /\
  DiskStats.Writes d = DiskStats.Writes tmp /\
  DiskStats.SpunDown d = false.

(** An output that, if it is a line in a file, is a line in [file], which
    is then a real path. *)
Definition toLogFile (file : string) (e : Event) : Prop :=
  match e with
  | FileLine f _ => f = file /\ String.length file <> 0%nat
  | _ => True
  end.

End Vocabulary.

(** ** Running the engine

  Equations that give the outcome of each function on a machine. *)

Section Run.
Context {World : Type} `{Host World}.
#[local] Existing Instances M_ret M_bind.

Implicit Types (m : Machine World) (ds tmp : DiskStats.t)
  (config : Config.t) (l : list DiskStats.t).

Lemma bind_run {A B} (c : M A) (f : A -> M B) m :
  (c ≫= f) m =
  match c m with Ok a m' => f a m' | Stop h m' => Stop h m' end.
Proof. reflexivity. Qed.

Lemma ask_run {A} (f : World -> A * World) m :
  ask f m =
  Ok (f (world m)).1
     (mkMachine (previousSnapshots m) (now m) (lastNow m) (f (world m)).2
        (trace m)).
Proof. unfold ask. now destruct (f (world m)). Qed.

Ltac prim :=
  unfold withSnapshots, withTrace;
  cbn [getNow getLastNow setNow setLastNow getSnapshots setSnapshots emit
       stop mret M_ret now lastNow previousSnapshots world trace
       final halted].
Ltac lists :=
  repeat (rewrite <- app_assoc || rewrite <- app_comm_cons
          || rewrite app_nil_r || rewrite app_nil_l);
  reflexivity.
Ltac step := rewrite ?ask_run; rewrite bind_run; rewrite ?ask_run; prim.

Lemma load_ok i m ds :
  0 <= i -> previousSnapshots m !! Z.to_nat i = Some ds ->
  load i m = Ok ds m.
Proof.
  intros Hi Hds. unfold load. step.
  destruct (Z.ltb_spec i 0); [lia|]. now rewrite Hds.
Qed.

Lemma store_ok i f m ds :
  0 <= i -> previousSnapshots m !! Z.to_nat i = Some ds ->
  store i f m =
  Ok tt (withSnapshots (<[Z.to_nat i := f ds]> (previousSnapshots m)) m).
Proof.
  intros Hi Hds. unfold store. step.
  rewrite (load_ok i m ds) by assumption. reflexivity.
Qed.

(** *** spindownDisk *)

Lemma spindownDisk_run device command m :
  spindownDisk device command m =
  Ok (spindownResult device command (world m))
     (mkMachine (previousSnapshots m) (now m) (lastNow m)
        (stopAnswer device command (world m)).2
        (trace m ++ Console (device +:+ " spindown" +:+ nl)
           :: stopCall device command)).
Proof.
  unfold spindownDisk, spindownResult, stopAnswer, stopCall, stopError.
  step.
  destruct (String.eqb_spec command SCSI) as [->|?].
  - do 2 step.
    destruct (sgio_StopScsiDevice device (world m)) as [[e|] w]; cbn;
      rewrite <- app_assoc; reflexivity.
  - destruct (String.eqb_spec command ATA) as [->|?].
    + do 2 step.
      destruct (sgio_StopAtaDevice device (world m)) as [[e|] w]; cbn;
        rewrite <- app_assoc; reflexivity.
    + reflexivity.
Qed.

(** *** logToFile *)

Lemma logToFile_no_file file text m :
  String.length file = 0%nat -> logToFile file text m = Ok tt m.
Proof. intros E. unfold logToFile. now rewrite E. Qed.

Lemma logToFile_final file text m :
  let o := logToFile file text m in
  previousSnapshots (final o) = previousSnapshots m /\
  now (final o) = now m /\ lastNow (final o) = lastNow m /\
  (trace (final o) = trace m \/
   trace (final o) = trace m ++ [FileLine file text]) /\
  halted o <> Some IndexOutOfRange.
Proof.
  unfold logToFile.
  destruct (String.length file =? 0)%nat; [cbn; auto 10|].
  step. destruct (os_OpenFile file (world m)) as [[e|] w1]; cbn [fst snd];
    [cbn; auto 10|].
  step. destruct (file_WriteString file text w1) as [[e|] w2];
    cbn [fst snd]; [cbn; auto 10|].
  do 2 step. destruct (file_Close file w2) as [[e|] w3]; cbn; auto 10.
Qed.

Lemma logToFile_ok file text m m' :
  logToFile file text m = Ok tt m' ->
  previousSnapshots m' = previousSnapshots m /\
  now m' = now m /\ lastNow m' = lastNow m /\
  trace m' = trace m ++ logged file text.
Proof.
  unfold logToFile, logged.
  destruct (String.length file =? 0)%nat.
  { intros [= <-]. now rewrite app_nil_r. }
  step. destruct (os_OpenFile file (world m)) as [[e|] w1]; cbn [fst snd];
    [discriminate|].
  step. destruct (file_WriteString file text w1) as [[e|] w2];
    cbn [fst snd]; [discriminate|].
  do 2 step. destruct (file_Close file w2) as [[e|] w3]; cbn;
    [discriminate|].
  intros [= <-]. auto.
Qed.

(** *** skewCheck *)

Lemma entry_insert l (i : nat) x ds :
  l !! i = Some ds -> <[i := x]> l !! i = Some x.
Proof. intros E. apply list_lookup_insert_eq. now apply lookup_lt_Some in E. Qed.

Ltac store_step ds :=
  erewrite (store_ok _ _ _ ds)
    by (try assumption; cbn [previousSnapshots withSnapshots];
        eauto using entry_insert);
  prim; rewrite ?list_insert_insert_eq.

Lemma skewCheck_quiet dsi config m :
  ~ skewed config m -> skewCheck dsi config m = Ok tt m.
Proof.
  unfold skewed, skewCheck. intros Hq. do 2 step.
  destruct (Z.gtb_spec (Sub (now m) (lastNow m)) (Config.SkewTime config));
    [lia|reflexivity].
Qed.

Lemma skewCheck_fires dsi config m ds :
  skewed config m -> 0 <= dsi ->
  previousSnapshots m !! Z.to_nat dsi = Some ds ->
  skewCheck dsi config m =
  logToFile (DefaultConf.LogFile (Config.Defaults config))
    (TxtSpinupAfterSleep (now m) (DiskStats.Name ds))
    (withSnapshots
       (<[Z.to_nat dsi := afterSleep (now m) ds]> (previousSnapshots m)) m).
Proof.
  unfold skewed, skewCheck. intros Hs Hi Hds. do 2 step.
  destruct (Z.gtb_spec (Sub (now m) (lastNow m)) (Config.SkewTime config));
    [|lia].
  step. store_step ds.
  step. store_step (DiskStats.set_SpinUpAt (now m) ds).
  step. store_step
    (DiskStats.set_LastIoAt (now m) (DiskStats.set_SpinUpAt (now m) ds)).
  step. rewrite (load_ok _ _ (afterSleep (now m) ds))
    by (try assumption; cbn [previousSnapshots]; eauto using entry_insert).
  unfold logSpinupAfterSleep. step. reflexivity.
Qed.

(** *** reconcile *)

Lemma withTrace_nil m : withTrace [] m = m.
Proof. destruct m. unfold withTrace. cbn. now rewrite app_nil_r. Qed.

Lemma debug_block config dsi m ds (t : Time) :
  0 <= dsi -> previousSnapshots m !! Z.to_nat dsi = Some ds ->
  (if DefaultConf.Debug (Config.Defaults config)
   then ds ← load dsi; emit (ConsoleDebug ds (Sub t (DiskStats.LastIoAt ds)))
   else mret tt) m = Ok tt (withTrace (debugLine config t ds) m).
Proof.
  intros Hi Hds. unfold debugLine.
  destruct (DefaultConf.Debug (Config.Defaults config)).
  - step. now rewrite (load_ok _ _ ds).
  - now rewrite withTrace_nil.
Qed.

Lemma sameCounters_true ds tmp :
  sameCounters ds tmp ->
  (DiskStats.Writes ds =? DiskStats.Writes tmp)
  && (DiskStats.Reads ds =? DiskStats.Reads tmp) = true.
Proof. intros [-> ->]. now rewrite !Z.eqb_refl. Qed.

Lemma sameCounters_false ds tmp :
  ~ sameCounters ds tmp ->
  (DiskStats.Writes ds =? DiskStats.Writes tmp)
  && (DiskStats.Reads ds =? DiskStats.Reads tmp) = false.
Proof.
  unfold sameCounters. intros Hn.
  destruct (Z.eqb_spec (DiskStats.Writes ds) (DiskStats.Writes tmp));
    destruct (Z.eqb_spec (DiskStats.Reads ds) (DiskStats.Reads tmp));
    cbn; tauto.
Qed.

Lemma idleExceeded_true (t : Time) ds :
  idleExceeded t ds ->
  negb (DiskStats.IdleTime ds =? 0)
  && (Sub t (DiskStats.LastIoAt ds) >? DiskStats.IdleTime ds) = true.
Proof.
  intros [Hz Hgt].
  destruct (Z.eqb_spec (DiskStats.IdleTime ds) 0); [tauto|].
  destruct (Z.gtb_spec (Sub t (DiskStats.LastIoAt ds))
              (DiskStats.IdleTime ds)); [reflexivity|lia].
Qed.

Lemma idleExceeded_false (t : Time) ds :
  ~ idleExceeded t ds ->
  negb (DiskStats.IdleTime ds =? 0)
  && (Sub t (DiskStats.LastIoAt ds) >? DiskStats.IdleTime ds) = false.
Proof.
  unfold idleExceeded. intros Hn.
  destruct (Z.eqb_spec (DiskStats.IdleTime ds) 0); [reflexivity|].
  destruct (Z.gtb_spec (Sub t (DiskStats.LastIoAt ds))
              (DiskStats.IdleTime ds)); [|reflexivity].
  exfalso. apply Hn. split; [assumption|lia].
Qed.

Section Tracked.
Variables (dsi : Z) (tmp : DiskStats.t) (config : Config.t)
  (m : Machine World) (ds : DiskStats.t).
Hypothesis Hdsi : 0 <= dsi.
Hypothesis Hds : previousSnapshots m !! Z.to_nat dsi = Some ds.

Lemma reconcile_idle :
  sameCounters ds tmp ->
  DiskStats.SpunDown ds = true \/ ~ idleExceeded (now m) ds ->
  reconcile dsi tmp config m =
  Ok tt (withTrace (debugLine config (now m) ds) m).
Proof using Hdsi Hds.
  intros Hsame Hidle. unfold reconcile. step.
  step. rewrite (load_ok _ _ ds) by assumption.
  rewrite bind_run, (sameCounters_true _ _ Hsame).
  destruct Hidle as [-> | Hidle]; cbn [negb].
  - prim. now apply debug_block.
  - destruct (DiskStats.SpunDown ds); cbn [negb].
    + prim. now apply debug_block.
    + rewrite (idleExceeded_false _ _ Hidle). prim.
      now apply debug_block.
Qed.

Lemma reconcile_fire :
  sameCounters ds tmp -> DiskStats.SpunDown ds = false ->
  idleExceeded (now m) ds ->
  let device := "/dev/" +:+ DiskStats.Name ds in
  let command := DiskStats.CommandType ds in
  reconcile dsi tmp config m =
  Ok tt
    (withTrace (debugLine config (now m) (spunDownAt (now m) ds))
       (mkMachine
          (<[Z.to_nat dsi := spunDownAt (now m) ds]> (previousSnapshots m))
          (now m) (lastNow m) (stopAnswer device command (world m)).2
          (trace m ++ spindownTrace device command (world m)))).
Proof using Hdsi Hds.
  intros Hsame Hrun Hidle device command. unfold reconcile. step.
  step. rewrite (load_ok _ _ ds) by assumption.
  rewrite bind_run, (sameCounters_true _ _ Hsame), Hrun.
  cbn [negb]. rewrite (idleExceeded_true _ _ Hidle).
  rewrite bind_run, spindownDisk_run. fold device command.
  unfold spindownTrace.
  destruct (spindownResult device command (world m)) as [e|].
  - do 2 step. store_step ds.
    store_step (DiskStats.set_SpinDownAt (now m) ds).
    erewrite debug_block
      by (try assumption; cbn [previousSnapshots];
          eauto using entry_insert).
    unfold spunDownAt. prim. do 2 f_equal. lists.
  - do 2 step. store_step ds.
    store_step (DiskStats.set_SpinDownAt (now m) ds).
    erewrite debug_block
      by (try assumption; cbn [previousSnapshots];
          eauto using entry_insert).
    unfold spunDownAt. prim. do 2 f_equal. lists.
Qed.

Lemma reconcile_io_running :
  ~ sameCounters ds tmp -> DiskStats.SpunDown ds = false ->
  reconcile dsi tmp config m =
  Ok tt
    (withTrace (debugLine config (now m) (withIo (now m) tmp ds))
       (withSnapshots
          (<[Z.to_nat dsi := withIo (now m) tmp ds]> (previousSnapshots m))
          m)).
Proof using Hdsi Hds.
  intros Hio Hrun. unfold reconcile. step.
  step. rewrite (load_ok _ _ ds) by assumption.
  rewrite bind_run, (sameCounters_false _ _ Hio), Hrun.
  do 2 step. store_step ds.
  step. store_step (DiskStats.set_Reads (DiskStats.Reads tmp) ds).
  step. store_step
    (DiskStats.set_Writes (DiskStats.Writes tmp)
       (DiskStats.set_Reads (DiskStats.Reads tmp) ds)).
  store_step
    (DiskStats.set_LastIoAt (now m)
       (DiskStats.set_Writes (DiskStats.Writes tmp)
          (DiskStats.set_Reads (DiskStats.Reads tmp) ds))).
  erewrite debug_block
    by (try assumption; cbn [previousSnapshots];
        eauto using entry_insert).
  reflexivity.
Qed.

Lemma reconcile_io_stopped :
  ~ sameCounters ds tmp -> DiskStats.SpunDown ds = true ->
  let t' := (time_Now (world m)).1 in
  let woken := withIo (now m) tmp (DiskStats.set_SpinUpAt (now m) ds) in
  reconcile dsi tmp config m =
  match
    logToFile (DefaultConf.LogFile (Config.Defaults config))
      (TxtSpinup t' (DiskStats.Name ds)
         (Sub (DiskStats.SpinDownAt ds) (DiskStats.SpinUpAt ds))
         (Sub t' (DiskStats.SpinDownAt ds)))
      (mkMachine (previousSnapshots m) (now m) (lastNow m)
         (time_Now (world m)).2
         (trace m ++ [Console (DiskStats.Name ds +:+ " spinup" +:+ nl)]))
  with
  | Ok _ m2 =>
      Ok tt
        (withTrace (debugLine config (now m) woken)
           (withSnapshots
              (<[Z.to_nat dsi := woken]> (previousSnapshots m)) m2))
  | Stop h m2 => Stop h m2
  end.
Proof using Hdsi Hds.
  intros Hio Hdown t' woken. unfold reconcile. step.
  step. rewrite (load_ok _ _ ds) by assumption.
  rewrite bind_run, (sameCounters_false _ _ Hio), Hdown.
  do 3 step. unfold logSpinup. step. fold t'.
  match goal with |- context [logToFile ?f ?x ?y] =>
    destruct (logToFile f x y) as [[] m2|h m2] eqn:E end;
    [|reflexivity].
  apply logToFile_ok in E as (Hp & Hn & Hl & Ht).
  cbn [previousSnapshots now lastNow trace] in Hp, Hn, Hl.
  assert (Hds2 : previousSnapshots m2 !! Z.to_nat dsi = Some ds)
    by now rewrite Hp.
  prim. store_step ds.
  step. store_step (DiskStats.set_SpinUpAt (now m) ds).
  step. store_step
    (DiskStats.set_Reads (DiskStats.Reads tmp)
       (DiskStats.set_SpinUpAt (now m) ds)).
  step. store_step
    (DiskStats.set_Writes (DiskStats.Writes tmp)
       (DiskStats.set_Reads (DiskStats.Reads tmp)
          (DiskStats.set_SpinUpAt (now m) ds))).
  store_step
    (DiskStats.set_LastIoAt (now m)
       (DiskStats.set_Writes (DiskStats.Writes tmp)
          (DiskStats.set_Reads (DiskStats.Reads tmp)
             (DiskStats.set_SpinUpAt (now m) ds)))).
  erewrite debug_block
    by (try assumption; cbn [previousSnapshots];
        eauto using entry_insert).
  rewrite Hp. reflexivity.
Qed.
End Tracked.

(** *** previousDiskStatsIndex *)

Lemma index_loop_range l (i : Z) n :
  let r := previousDiskStatsIndex_loop i l n in
  r = -1 \/ i <= r < i + Z.of_nat (length l).
Proof.
  revert i. induction l as [|d l IH]; intros i; cbn; [now left|].
  destruct (String.eqb _ _); [right; lia|].
  destruct (IH (i + 1)) as [->|?]; [now left|right; lia].
Qed.

Lemma index_loop_found l (i : Z) n r :
  0 <= i -> previousDiskStatsIndex_loop i l n = r -> 0 <= r ->
  i <= r /\
  exists ds, l !! Z.to_nat (r - i) = Some ds /\ DiskStats.Name ds = n /\
    forall (j : nat) d, (j < Z.to_nat (r - i))%nat -> l !! j = Some d ->
      DiskStats.Name d <> n.
Proof.
  revert i. induction l as [|d l IH]; intros i Hi; cbn; [lia|].
  destruct (String.eqb_spec (DiskStats.Name d) n) as [E|E].
  - intros <- _. split; [lia|]. rewrite Z.sub_diag. exists d.
    repeat split; [assumption|]. cbn. lia.
  - intros Hr Hpos. destruct (IH (i + 1) ltac:(lia) Hr Hpos)
      as (Hle & ds & Hds & Hn & Hfirst).
    split; [lia|]. exists ds.
    replace (Z.to_nat (r - i)) with (S (Z.to_nat (r - (i + 1)))) by lia.
    repeat split; [assumption..|].
    intros [|j] d' Hj; cbn.
    + now intros [= <-].
    + apply Hfirst. lia.
Qed.

Lemma index_loop_missing l (i : Z) n :
  0 <= i -> previousDiskStatsIndex_loop i l n < 0 ->
  forall (j : nat) d, l !! j = Some d -> DiskStats.Name d <> n.
Proof.
  revert i. induction l as [|d l IH]; intros i Hi; cbn; [easy|].
  destruct (String.eqb_spec (DiskStats.Name d) n) as [E|E]; [lia|].
  intros Hneg [|j] d'; cbn; [now intros [= <-]|].
  apply (IH (i + 1)); [lia|assumption].
Qed.

(** The index of the first state called [n], when the engine finds one. *)
Lemma index_found l n dsi :
  previousDiskStatsIndex_loop 0 l n = dsi -> 0 <= dsi ->
  exists ds, l !! Z.to_nat dsi = Some ds /\ DiskStats.Name ds = n /\
    forall (j : nat) d, (j < Z.to_nat dsi)%nat -> l !! j = Some d ->
      DiskStats.Name d <> n.
Proof.
  intros Hr Hpos.
  destruct (index_loop_found l 0 n dsi ltac:(lia) Hr Hpos) as [_ Hx].
  now rewrite Z.sub_0_r in Hx.
Qed.

(** The first index at which a name occurs decides the search. *)
Lemma index_first l n (k : nat) ds :
  l !! k = Some ds -> DiskStats.Name ds = n ->
  (forall (j : nat) d, (j < k)%nat -> l !! j = Some d ->
     DiskStats.Name d <> n) ->
  previousDiskStatsIndex_loop 0 l n = Z.of_nat k.
Proof.
  intros Hk Hn Hfirst.
  destruct (index_loop_range l 0 n) as [Hm|Hr].
  - exfalso. eapply (index_loop_missing l 0 n); eauto; lia.
  - destruct (index_found l n _ eq_refl ltac:(lia)) as (d & Hd & Hdn & Hf).
    set (r := previousDiskStatsIndex_loop 0 l n) in *.
    destruct (Nat.lt_trichotomy (Z.to_nat r) k) as [Hlt|[Heq|Hgt]].
    + exfalso. now apply (Hfirst _ _ Hlt Hd).
    + lia.
    + exfalso. now apply (Hf _ _ Hgt Hk).
Qed.

(** *** initDevice and updateState *)

Lemma initDevice_run stats config m :
  let r1 := time_Now (world m) in
  let r2 := time_Now r1.2 in
  initDevice stats config m =
  Ok (created stats config r1.1 r2.1)
     (mkMachine (previousSnapshots m) (now m) (lastNow m) r2.2 (trace m)).
Proof.
  unfold initDevice, created. do 2 step.
  now destruct (deviceConfig (DiskStats.Name stats) config).
Qed.

Lemma updateState_new tmp config m :
  previousDiskStatsIndex_loop 0 (previousSnapshots m) (DiskStats.Name tmp)
    < 0 ->
  let r1 := time_Now (world m) in
  let r2 := time_Now r1.2 in
  updateState tmp config m =
  Ok tt
     (mkMachine (previousSnapshots m ++ [created tmp config r1.1 r2.1])
        (now m) (lastNow m) r2.2 (trace m)).
Proof.
  intros Hneg r1 r2. unfold updateState, previousDiskStatsIndex.
  do 2 step.
  destruct (Z.ltb_spec
    (previousDiskStatsIndex_loop 0 (previousSnapshots m)
       (DiskStats.Name tmp)) 0); [|lia].
  rewrite bind_run, initDevice_run. step. reflexivity.
Qed.

Lemma updateState_known tmp config m dsi :
  previousDiskStatsIndex_loop 0 (previousSnapshots m) (DiskStats.Name tmp)
    = dsi ->
  0 <= dsi ->
  updateState tmp config m =
  match skewCheck dsi config m with
  | Ok _ m1 => reconcile dsi tmp config m1
  | Stop h m' => Stop h m'
  end.
Proof.
  intros Hidx Hpos. unfold updateState, previousDiskStatsIndex.
  do 2 step. rewrite Hidx.
  destruct (Z.ltb_spec dsi 0); [lia|]. now rewrite bind_run.
Qed.

Lemma skewed_dec config m : {skewed config m} + {~ skewed config m}.
Proof. unfold skewed. apply Z_gt_dec. Qed.

Lemma sameCounters_dec ds tmp : {sameCounters ds tmp} + {~ sameCounters ds tmp}.
Proof.
  unfold sameCounters.
  destruct (Z.eq_dec (DiskStats.Writes ds) (DiskStats.Writes tmp));
    destruct (Z.eq_dec (DiskStats.Reads ds) (DiskStats.Reads tmp)); tauto.
Qed.

Lemma idleExceeded_dec (t : Time) ds :
  {idleExceeded t ds} + {~ idleExceeded t ds}.
Proof.
  unfold idleExceeded.
  destruct (Z.eq_dec (DiskStats.IdleTime ds) 0);
    destruct (Z_gt_dec (Sub t (DiskStats.LastIoAt ds))
                (DiskStats.IdleTime ds)); tauto.
Qed.

(** What is known of the machine that [skewCheck] hands to [reconcile]. *)
Lemma skewCheck_inv dsi config m ds0 m1 :
  0 <= dsi -> previousSnapshots m !! Z.to_nat dsi = Some ds0 ->
  skewCheck dsi config m = Ok tt m1 ->
  now m1 = now m /\ lastNow m1 = lastNow m /\
  ((~ skewed config m /\ m1 = m) \/
   (skewed config m /\
    previousSnapshots m1 =
      <[Z.to_nat dsi := afterSleep (now m) ds0]> (previousSnapshots m) /\
    trace m1 =
      trace m ++
      logged (DefaultConf.LogFile (Config.Defaults config))
        (TxtSpinupAfterSleep (now m) (DiskStats.Name ds0)))).
Proof.
  intros Hi Hds0 Hrun. destruct (skewed_dec config m) as [Hs|Hq].
  - rewrite (skewCheck_fires _ _ _ ds0) in Hrun by assumption.
    apply logToFile_ok in Hrun as (Hp & Hn & Hl & Ht).
    repeat split; [assumption..|]. right. auto.
  - rewrite skewCheck_quiet in Hrun by assumption.
    injection Hrun as <-. auto.
Qed.

(** C1: a tracked device that [reconcile] finds running (spun_down false)
    with the counters of the snapshot entry is spun down exactly when its
    idle_time is not zero and the idle duration [now - last_io_at] is
    strictly greater than idle_time.  When that holds, [spindownDisk] runs
    once and the state gets spin_down_at = now and spun_down = true; when it
    does not hold (for instance at an idle duration equal to idle_time, or
    with idle_time = 0 however long the counters stood still), nothing is put
    out but the debug line and the retained states are left as they were.
    The state [ds] is the one the comparison reads, that is the stored state
    after the suspend detection of the same call. *)
Theorem C1_spin_down_iff_idle_exceeded tmp config m dsi m1 ds :
  previousDiskStatsIndex_loop 0 (previousSnapshots m) (DiskStats.Name tmp)
    = dsi ->
  0 <= dsi ->
  skewCheck dsi config m = Ok tt m1 ->
  previousSnapshots m1 !! Z.to_nat dsi = Some ds ->
  DiskStats.Writes ds = DiskStats.Writes tmp ->
  DiskStats.Reads ds = DiskStats.Reads tmp ->
  DiskStats.SpunDown ds = false ->
  let o := updateState tmp config m in
  let fires :=
    DiskStats.IdleTime ds <> 0 /\
    Sub (now m) (DiskStats.LastIoAt ds) > DiskStats.IdleTime ds in
  let down :=
    DiskStats.set_SpunDown true (DiskStats.set_SpinDownAt (now m) ds) in
  halted o = None /\
  (fires ->
   previousSnapshots (final o) =
     <[Z.to_nat dsi := down]> (previousSnapshots m1) /\
   trace (final o) =
     trace m1
     ++ spindownTrace ("/dev/" +:+ DiskStats.Name ds)
          (DiskStats.CommandType ds) (world m1)
     ++ debugLine config (now m) down) /\
  (~ fires ->
   previousSnapshots (final o) = previousSnapshots m1 /\
   trace (final o) = trace m1 ++ debugLine config (now m) ds) /\
  (Sub (now m) (DiskStats.LastIoAt ds) = DiskStats.IdleTime ds -> ~ fires) /\
  (DiskStats.IdleTime ds = 0 -> ~ fires).
Proof.
  intros Hidx Hpos Hskew Hds Hw Hr Hrun o fires down.
  destruct (index_found _ _ _ Hidx Hpos) as (ds0 & Hds0 & _).
  destruct (skewCheck_inv _ _ _ _ _ Hpos Hds0 Hskew) as (Hn & _ & _).
  assert (Hsame : sameCounters ds tmp) by (split; assumption).
  assert (Ho : o = reconcile dsi tmp config m1).
  { unfold o. rewrite (updateState_known _ _ _ dsi) by assumption.
    now rewrite Hskew. }
  assert (Hedge : (Sub (now m) (DiskStats.LastIoAt ds)
                     = DiskStats.IdleTime ds -> ~ fires)
                  /\ (DiskStats.IdleTime ds = 0 -> ~ fires)).
  { unfold fires. split; intros E [Hz Hgt]; [lia|tauto]. }
  destruct (idleExceeded_dec (now m) ds) as [Hf|Hnf].
  - rewrite Ho, (reconcile_fire dsi tmp config m1 ds)
      by (rewrite ?Hn; assumption).
    cbn [halted final]. unfold withTrace. cbn [previousSnapshots trace].
    rewrite !Hn.
    split; [reflexivity|]. split; [|split; [intros Hnf; now destruct Hnf|]].
    + intros _. split; [reflexivity|lists].
    + exact Hedge.
  - rewrite Ho, (reconcile_idle dsi tmp config m1 ds)
      by (rewrite ?Hn; auto).
    cbn [halted final]. unfold withTrace. cbn [previousSnapshots trace].
    rewrite !Hn.
    split; [reflexivity|]. split; [intros Hf; now destruct Hnf|].
    split; [intros _; split; reflexivity|exact Hedge].
Qed.

(** For a tracked device, [updateState] is [reconcile] run on the machine
    [skewCheck] leaves, and the clock variables are the ones of the call. *)
Lemma updateState_after_skew tmp config m dsi m1 :
  previousDiskStatsIndex_loop 0 (previousSnapshots m) (DiskStats.Name tmp)
    = dsi ->
  0 <= dsi ->
  skewCheck dsi config m = Ok tt m1 ->
  updateState tmp config m = reconcile dsi tmp config m1 /\
  now m1 = now m /\ lastNow m1 = lastNow m.
Proof.
  intros Hidx Hpos Hskew.
  destruct (index_found _ _ _ Hidx Hpos) as (ds0 & Hds0 & _).
  destruct (skewCheck_inv _ _ _ _ _ Hpos Hds0 Hskew) as (Hn & Hl & _).
  rewrite (updateState_known _ _ _ dsi) by assumption.
  now rewrite Hskew.
Qed.

(** C4: when the spin-down decision fires, the state of the device gets
    spin_down_at = now and spun_down = true whatever the stop capability
    answers.  An error answer adds one console line with the error text and
    nothing else: the capability is called at most once, the process goes
    on, and the retained states are the same as after a success. *)
Theorem C4_transition_regardless_of_stop_result
    tmp config m dsi m1 ds (answer : error) (w' : World) :
  previousDiskStatsIndex_loop 0 (previousSnapshots m) (DiskStats.Name tmp)
    = dsi ->
  0 <= dsi ->
  skewCheck dsi config m = Ok tt m1 ->
  previousSnapshots m1 !! Z.to_nat dsi = Some ds ->
  DiskStats.Writes ds = DiskStats.Writes tmp ->
  DiskStats.Reads ds = DiskStats.Reads tmp ->
  DiskStats.SpunDown ds = false ->
  DiskStats.IdleTime ds <> 0 ->
  Sub (now m) (DiskStats.LastIoAt ds) > DiskStats.IdleTime ds ->
  stopAnswer ("/dev/" +:+ DiskStats.Name ds) (DiskStats.CommandType ds)
    (world m1) = (answer, w') ->
  let o := updateState tmp config m in
  let device := "/dev/" +:+ DiskStats.Name ds in
  let command := DiskStats.CommandType ds in
  let down :=
    DiskStats.set_SpunDown true (DiskStats.set_SpinDownAt (now m) ds) in
  halted o = None /\
  previousSnapshots (final o) =
    <[Z.to_nat dsi := down]> (previousSnapshots m1) /\
  world (final o) = w' /\
  trace (final o) =
    trace m1
    ++ [Console (device +:+ " spindown" +:+ nl)]
    ++ stopCall device command
    ++ match answer with
       | Some e => [Console (stopError device command e +:+ nl)]
       | None => []
       end
    ++ debugLine config (now m) down /\
  (length (stopCall device command) <= 1)%nat.
Proof.
  intros Hidx Hpos Hskew Hds Hw Hr Hrun Hz Hgt Hans o device command down.
  destruct (updateState_after_skew _ _ _ _ _ Hidx Hpos Hskew)
    as (Ho & Hn & _).
  unfold o. rewrite Ho, (reconcile_fire dsi tmp config m1 ds)
    by (rewrite ?Hn; first [assumption | split; assumption]).
  cbn [halted final]. unfold withTrace, spindownTrace, spindownResult.
  cbn [previousSnapshots trace world]. rewrite Hans, !Hn. cbn [fst snd].
  fold device command down.
  split; [reflexivity|]. split; [reflexivity|]. split; [reflexivity|].
  split.
  - destruct answer; lists.
  - unfold stopCall. repeat case_match; cbn; lia.
Qed.

(** C10: with a command type that is neither "scsi" nor "ata",
    [spindownDisk] prints the spindown line, calls no stop capability and
    returns no error; a tracked device with such a cached command type whose
    spin-down decision fires is still marked spun down at [now], and the
    only output is that console line (and the debug line). *)
Theorem C10_unrecognized_command_type (command : string) :
  command <> SCSI -> command <> ATA ->
  (forall device m,
     spindownDisk device command m =
     Ok None (withTrace [Console (device +:+ " spindown" +:+ nl)] m)) /\
  (forall tmp config m dsi m1 ds,
     previousDiskStatsIndex_loop 0 (previousSnapshots m) (DiskStats.Name tmp)
       = dsi ->
     0 <= dsi ->
     skewCheck dsi config m = Ok tt m1 ->
     previousSnapshots m1 !! Z.to_nat dsi = Some ds ->
     DiskStats.CommandType ds = command ->
     DiskStats.Writes ds = DiskStats.Writes tmp ->
     DiskStats.Reads ds = DiskStats.Reads tmp ->
     DiskStats.SpunDown ds = false ->
     DiskStats.IdleTime ds <> 0 ->
     Sub (now m) (DiskStats.LastIoAt ds) > DiskStats.IdleTime ds ->
     let o := updateState tmp config m in
     let down :=
       DiskStats.set_SpunDown true (DiskStats.set_SpinDownAt (now m) ds) in
     halted o = None /\
     previousSnapshots (final o) =
       <[Z.to_nat dsi := down]> (previousSnapshots m1) /\
     world (final o) = world m1 /\
     trace (final o) =
       trace m1
       ++ [Console ("/dev/" +:+ DiskStats.Name ds +:+ " spindown" +:+ nl)]
       ++ debugLine config (now m) down).
Proof.
  intros Hscsi Hata.
  assert (Hans : forall device w, stopAnswer device command w = (None, w)).
  { intros. unfold stopAnswer.
    destruct (String.eqb_spec command SCSI); [contradiction|].
    destruct (String.eqb_spec command ATA); [contradiction|]. reflexivity. }
  assert (Hcall : forall device, stopCall device command = []).
  { intros. unfold stopCall.
    destruct (String.eqb_spec command SCSI); [contradiction|].
    destruct (String.eqb_spec command ATA); [contradiction|]. reflexivity. }
  split.
  - intros device m. rewrite spindownDisk_run. unfold spindownResult.
    rewrite Hans, Hcall. reflexivity.
  - intros tmp config m dsi m1 ds Hidx Hpos Hskew Hds Hcmd Hw Hr Hrun Hz Hgt
      o down.
    destruct (updateState_after_skew _ _ _ _ _ Hidx Hpos Hskew)
      as (Ho & Hn & _).
    unfold o. rewrite Ho, (reconcile_fire dsi tmp config m1 ds)
      by (rewrite ?Hn; first [assumption | split; assumption]).
    cbn [halted final]. unfold withTrace, spindownTrace, spindownResult.
    cbn [previousSnapshots trace world].
    rewrite Hcmd, Hans, Hcall, !Hn. cbn [fst snd]. fold down.
    repeat (split; [reflexivity|]). lists.
Qed.

(** C5 (amended): when the counters of a tracked device differ from the
    snapshot entry, its state gets the reads and writes of the entry,
    last_io_at = now and spun_down = false.  If it was spun down, one
    console line "<name> spinup" is printed first and, when a log file is
    configured, one log line whose "running" value is
    spin_down_at - spin_up_at and whose "stopped" value is
    t - spin_down_at, [t] being a reading of the clock taken for that line;
    then spin_up_at = now.  Only a failure of the log file stops the
    process. *)
Theorem C5_counter_change tmp config m dsi m1 ds :
  previousDiskStatsIndex_loop 0 (previousSnapshots m) (DiskStats.Name tmp)
    = dsi ->
  0 <= dsi ->
  skewCheck dsi config m = Ok tt m1 ->
  previousSnapshots m1 !! Z.to_nat dsi = Some ds ->
  ~ (DiskStats.Writes ds = DiskStats.Writes tmp /\
     DiskStats.Reads ds = DiskStats.Reads tmp) ->
  let o := updateState tmp config m in
  let file := DefaultConf.LogFile (Config.Defaults config) in
  let t' := (time_Now (world m1)).1 in
  let line :=
    TxtSpinup t' (DiskStats.Name ds)
      (Sub (DiskStats.SpinDownAt ds) (DiskStats.SpinUpAt ds))
      (Sub t' (DiskStats.SpinDownAt ds)) in
  let woken := withIo (now m) tmp (DiskStats.set_SpinUpAt (now m) ds) in
  (DiskStats.SpunDown ds = false ->
   halted o = None /\
   previousSnapshots (final o) =
     <[Z.to_nat dsi := withIo (now m) tmp ds]> (previousSnapshots m1) /\
   trace (final o) =
     trace m1 ++ debugLine config (now m) (withIo (now m) tmp ds)) /\
  (DiskStats.SpunDown ds = true ->
   halted o <> Some IndexOutOfRange /\
   (String.length file = 0%nat -> halted o = None) /\
   (halted o = None ->
    previousSnapshots (final o) =
      <[Z.to_nat dsi := woken]> (previousSnapshots m1) /\
    trace (final o) =
      trace m1
      ++ [Console (DiskStats.Name ds +:+ " spinup" +:+ nl)]
      ++ logged file line
      ++ debugLine config (now m) woken)).
Proof.
  intros Hidx Hpos Hskew Hds Hio o file t' line woken.
  destruct (updateState_after_skew _ _ _ _ _ Hidx Hpos Hskew)
    as (Ho & Hn & _).
  split; intros Hflag.
  - unfold o. rewrite Ho, (reconcile_io_running dsi tmp config m1 ds)
      by assumption.
    cbn [halted final]. unfold withTrace, withSnapshots.
    cbn [previousSnapshots trace]. rewrite !Hn. auto.
  - unfold o.
    rewrite Ho, (reconcile_io_stopped dsi tmp config m1 ds) by assumption.
    fold file t'. rewrite !Hn. fold line woken.
    match goal with |- context [logToFile file line ?m0] =>
      pose proof (logToFile_final file line m0) as Hfin;
      pose proof (logToFile_ok file line m0) as Hok;
      pose proof (logToFile_no_file file line m0) as Hnone;
      destruct (logToFile file line m0) as [[] m2|h m2]
    end.
    + cbn [halted final]. unfold withTrace, withSnapshots.
      cbn [previousSnapshots trace].
      destruct (Hok m2 eq_refl) as (_ & _ & _ & Ht).
      cbn [trace] in Ht. split; [discriminate|].
      split; [reflexivity|]. intros _. split; [reflexivity|].
      rewrite Ht. lists.
    + cbn [halted final] in *. destruct Hfin as (_ & _ & _ & _ & Hh).
      split; [assumption|]. split; [|discriminate].
      intros E. specialize (Hnone E). discriminate.
Qed.

Lemma created_spec tmp config (lastIoAt spinUpAt : Time) :
  exists dc, deviceConfig (DiskStats.Name tmp) config = Some dc /\
    created tmp config lastIoAt spinUpAt =
    DiskStats.mk (DiskStats.Name tmp) (DeviceConf.Idle dc)
      (DeviceConf.CommandType dc) (DiskStats.Reads tmp)
      (DiskStats.Writes tmp) zeroTime spinUpAt lastIoAt false.
Proof.
  unfold created, deviceConfig.
  destruct (deviceConfig_loop _ _) as [dc|]; eexists; split; reflexivity.
Qed.

(** C6 (amended): a snapshot entry whose name is not tracked appends one
    state: name and counters of the entry, idle threshold and command type
    of [deviceConfig], spun_down = false, and last_io_at, spin_up_at set to
    two successive readings of the clock taken at creation (not to the
    [now] of the cycle).  Nothing is put out.  When the same entry is seen
    again the appended state is the one found, no second state is created,
    and while no suspend is assumed and the idle threshold is not exceeded
    the retained states stay as they are with spun_down = false and no
    output but the debug line. *)
Theorem C6_first_sighting tmp config m :
  previousDiskStatsIndex_loop 0 (previousSnapshots m) (DiskStats.Name tmp)
    < 0 ->
  let r1 := time_Now (world m) in
  let r2 := time_Now r1.2 in
  let d := created tmp config r1.1 r2.1 in
  updateState tmp config m =
    Ok tt (mkMachine (previousSnapshots m ++ [d]) (now m) (lastNow m) r2.2
             (trace m)) /\
  (exists dc, deviceConfig (DiskStats.Name tmp) config = Some dc /\
     d = DiskStats.mk (DiskStats.Name tmp) (DeviceConf.Idle dc)
           (DeviceConf.CommandType dc) (DiskStats.Reads tmp)
           (DiskStats.Writes tmp) zeroTime r2.1 r1.1 false) /\
  (forall config2 m2,
     previousSnapshots m2 = previousSnapshots m ++ [d] ->
     previousDiskStatsIndex_loop 0 (previousSnapshots m2)
       (DiskStats.Name tmp) = Z.of_nat (length (previousSnapshots m)) /\
     (~ skewed config2 m2 -> ~ idleExceeded (now m2) d ->
      updateState tmp config2 m2 =
        Ok tt (withTrace (debugLine config2 (now m2) d) m2))).
Proof.
  intros Hneg r1 r2 d.
  split; [now apply updateState_new|].
  assert (Hd : exists dc, deviceConfig (DiskStats.Name tmp) config = Some dc /\
     d = DiskStats.mk (DiskStats.Name tmp) (DeviceConf.Idle dc)
           (DeviceConf.CommandType dc) (DiskStats.Reads tmp)
           (DiskStats.Writes tmp) zeroTime r2.1 r1.1 false).
  { apply created_spec. }
  split; [exact Hd|].
  intros config2 m2 Hp.
  assert (Hname : DiskStats.Name d = DiskStats.Name tmp).
  { destruct Hd as (dc & _ & ->). reflexivity. }
  assert (Hat : previousSnapshots m2 !! length (previousSnapshots m) = Some d).
  { rewrite Hp. now apply list_lookup_middle. }
  assert (Hidx : previousDiskStatsIndex_loop 0 (previousSnapshots m2)
            (DiskStats.Name tmp) = Z.of_nat (length (previousSnapshots m))).
  { apply (index_first _ _ _ d Hat Hname).
    intros j d' Hj Hd'. rewrite Hp, lookup_app_l in Hd' by assumption.
    eapply index_loop_missing; [|exact Hneg|exact Hd']. lia. }
  split; [exact Hidx|].
  intros Hq Hidle.
  rewrite (updateState_known _ _ _ _ Hidx) by lia.
  rewrite skewCheck_quiet by assumption.
  apply reconcile_idle; [lia|now rewrite Nat2Z.id| |now right].
  destruct Hd as (dc & _ & ->). split; reflexivity.
Qed.

(** *** What a call may change *)

Lemma cached_refl ds : cached ds ds.
Proof. now repeat split. Qed.

Lemma cached_trans a b c : cached a b -> cached b c -> cached a c.
Proof. unfold cached. intros (?&?&?) (?&?&?). repeat split; congruence. Qed.

Lemma keepsStates_refl P l : keepsStates P l l.
Proof. intros i ds Hi. exists ds. auto using cached_refl. Qed.

Lemma keepsStates_trans P l1 l2 l3 :
  keepsStates P l1 l2 -> keepsStates P l2 l3 -> keepsStates P l1 l3.
Proof.
  intros H12 H23 i ds Hi.
  destruct (H12 i ds Hi) as (d2 & H2 & Hc2 & He2).
  destruct (H23 i d2 H2) as (d3 & H3 & Hc3 & He3).
  exists d3. split; [assumption|]. split; [eauto using cached_trans|].
  intros Hn. rewrite <- (He2 Hn). apply He3.
  destruct Hc2 as (-> & _). exact Hn.
Qed.

Lemma keepsStates_mono (P Q : string -> Prop) l l' :
  (forall n, P n -> Q n) -> keepsStates P l l' -> keepsStates Q l l'.
Proof.
  intros HPQ Hk i ds Hi. destruct (Hk i ds Hi) as (d & ? & ? & He).
  exists d. split; [assumption|]. split; [assumption|].
  intros Hn. apply He. auto.
Qed.

Lemma keepsStates_insert (P : string -> Prop) l (k : nat) ds x :
  l !! k = Some ds -> cached ds x -> P (DiskStats.Name ds) ->
  keepsStates P l (<[k := x]> l).
Proof.
  intros Hk Hc HP i d Hi. destruct (decide (k = i)) as [<-|Hne].
  - exists x. rewrite Hk in Hi. injection Hi as <-.
    split; [eauto using entry_insert|]. split; [assumption|]. tauto.
  - exists d. rewrite list_lookup_insert_ne by assumption.
    auto using cached_refl.
Qed.

Lemma keepsStates_snoc P l d : keepsStates P l (l ++ [d]).
Proof.
  intros i ds Hi. exists ds.
  split; [now apply lookup_app_l_Some|auto using cached_refl].
Qed.

Lemma keepsStates_length P l l' :
  keepsStates P l l' -> (length l <= length l')%nat.
Proof.
  intros Hk. destruct (decide (length l <= length l')%nat); [assumption|].
  exfalso. destruct (lookup_lt_is_Some_2 l (length l')) as [d Hd]; [lia|].
  destruct (Hk _ _ Hd) as (d' & Hd' & _).
  apply lookup_lt_Some in Hd'. lia.
Qed.

Lemma evolves_refl P m : evolves P m m.
Proof.
  split; [reflexivity|]. split; [reflexivity|].
  split; [apply keepsStates_refl|]. exists [].
  now rewrite app_nil_r.
Qed.

Lemma evolves_trans P m1 m2 m3 :
  evolves P m1 m2 -> evolves P m2 m3 -> evolves P m1 m3.
Proof.
  intros (Hn1 & Hl1 & Hk1 & new1 & Ht1 & Hf1)
         (Hn2 & Hl2 & Hk2 & new2 & Ht2 & Hf2).
  split; [congruence|]. split; [congruence|].
  split; [eauto using keepsStates_trans|].
  exists (new1 ++ new2). split; [rewrite Ht2, Ht1; lists|].
  now apply Forall_app.
Qed.

Lemma evolves_mono (P Q : string -> Prop) m m' :
  (forall n, P n -> Q n) -> evolves P m m' -> evolves Q m m'.
Proof.
  intros HPQ (Hn & Hl & Hk & new & Ht & Hf).
  split; [assumption|]. split; [assumption|].
  split; [eauto using keepsStates_mono|].
  exists new. split; [assumption|].
  eapply Forall_impl; [exact Hf|]. intros e (n & HP & Ha). eauto.
Qed.

(** A machine that differs from [m] by one state and some output. *)
Lemma evolves_update n m (k : nat) ds x w new :
  previousSnapshots m !! k = Some ds -> DiskStats.Name ds = n ->
  cached ds x -> Forall (about n) new ->
  evolves (eq n) m
    (mkMachine (<[k := x]> (previousSnapshots m)) (now m) (lastNow m) w
       (trace m ++ new)).
Proof.
  intros Hk Hn Hc Hnew.
  split; [reflexivity|]. split; [reflexivity|]. split; cbn.
  - eapply keepsStates_insert; eauto.
  - exists new. split; [reflexivity|].
    eapply Forall_impl; [exact Hnew|]. intros e He. eauto.
Qed.

Lemma evolves_output n m w new :
  Forall (about n) new ->
  evolves (eq n) m
    (mkMachine (previousSnapshots m) (now m) (lastNow m) w (trace m ++ new)).
Proof.
  intros Hnew. split; [reflexivity|]. split; [reflexivity|].
  split; cbn; [apply keepsStates_refl|].
  exists new. split; [reflexivity|].
  eapply Forall_impl; [exact Hnew|]. intros e He. eauto.
Qed.

Lemma about_debugLine config (t : Time) ds :
  Forall (about (DiskStats.Name ds)) (debugLine config t ds).
Proof.
  unfold debugLine. destruct (DefaultConf.Debug _); repeat constructor.
Qed.

Lemma about_spindownTrace n command w :
  Forall (about n) (spindownTrace ("/dev/" +:+ n) command w).
Proof.
  unfold spindownTrace, stopCall. constructor; [exact I|].
  apply Forall_app. split.
  - repeat case_match; repeat constructor.
  - case_match; repeat constructor.
Qed.

Lemma about_logged_sleep n file (t : Time) :
  Forall (about n) (logged file (TxtSpinupAfterSleep t n)).
Proof. unfold logged. case_match; repeat constructor. Qed.

Lemma skewCheck_evolves dsi config m ds0 :
  0 <= dsi -> previousSnapshots m !! Z.to_nat dsi = Some ds0 ->
  let o := skewCheck dsi config m in
  evolves (eq (DiskStats.Name ds0)) m (final o) /\
  halted o <> Some IndexOutOfRange /\
  length (previousSnapshots (final o)) = length (previousSnapshots m).
Proof.
  intros Hi Hds0 o. unfold o. destruct (skewed_dec config m) as [Hs|Hq].
  - rewrite (skewCheck_fires _ _ _ ds0) by assumption.
    match goal with |- context [logToFile ?f ?x ?y] =>
      destruct (logToFile_final f x y) as (Hp & Hn & Hl & Ht & Hh);
      set (r := logToFile f x y) in *
    end.
    cbn [previousSnapshots withSnapshots now lastNow trace] in *.
    split; [|split; [assumption|now rewrite Hp, length_insert]].
    split; [assumption|]. split; [assumption|]. split.
    + rewrite Hp. eapply keepsStates_insert; eauto. now repeat split.
    + destruct Ht as [Ht|Ht]; rewrite Ht.
      * exists []. split; [now rewrite app_nil_r|constructor].
      * eexists. split; [reflexivity|]. repeat constructor.
        exists (DiskStats.Name ds0). now split.
  - rewrite skewCheck_quiet by assumption. cbn.
    split; [apply evolves_refl|]. split; [discriminate|reflexivity].
Qed.

Lemma reconcile_evolves dsi tmp config m ds :
  0 <= dsi -> previousSnapshots m !! Z.to_nat dsi = Some ds ->
  let o := reconcile dsi tmp config m in
  evolves (eq (DiskStats.Name ds)) m (final o) /\
  halted o <> Some IndexOutOfRange /\
  length (previousSnapshots (final o)) = length (previousSnapshots m).
Proof.
  intros Hi Hds o. unfold o.
  destruct (sameCounters_dec ds tmp) as [Hsame|Hio].
  - destruct (DiskStats.SpunDown ds) eqn:Hflag.
    + rewrite (reconcile_idle dsi tmp config m ds) by auto.
      cbn. split; [|split; [discriminate|reflexivity]].
      apply evolves_output, about_debugLine.
    + destruct (idleExceeded_dec (now m) ds) as [Hf|Hnf].
      * rewrite (reconcile_fire dsi tmp config m ds) by assumption.
        unfold withTrace. cbn [final halted previousSnapshots now lastNow
                                 world trace].
        split; [|split; [discriminate|now rewrite length_insert]].
        rewrite <- app_assoc.
        apply (evolves_update _ _ _ ds); [assumption|reflexivity| |].
        { now repeat split. }
        apply Forall_app. split; [apply about_spindownTrace|].
        apply (about_debugLine config (now m) (spunDownAt (now m) ds)).
      * rewrite (reconcile_idle dsi tmp config m ds) by auto.
        cbn. split; [|split; [discriminate|reflexivity]].
        apply evolves_output, about_debugLine.
  - destruct (DiskStats.SpunDown ds) eqn:Hflag.
    + rewrite (reconcile_io_stopped dsi tmp config m ds) by assumption.
      match goal with |- context [logToFile ?f ?x ?y] =>
        destruct (logToFile_final f x y) as (Hp & Hn & Hl & Ht & Hh);
        destruct (logToFile f x y) as [[] m2|h m2]
      end; cbn [final halted previousSnapshots now lastNow trace] in *.
      * unfold withTrace, withSnapshots.
        cbn [previousSnapshots now lastNow world trace].
        split; [|split; [discriminate|now rewrite length_insert]].
        split; [assumption|]. split; [assumption|]. split.
        { eapply keepsStates_insert; eauto. now repeat split. }
        set (woken := withIo _ _ _).
        destruct Ht as [-> | ->]; cbn [trace]; eexists;
          (split; [rewrite <- ?app_assoc; reflexivity|]).
        -- constructor; [eexists; split; [reflexivity|exact I]|].
           eapply Forall_impl;
             [apply (about_debugLine config (now m) woken)|].
           intros e He. eexists; split; [reflexivity|exact He].
        -- constructor; [eexists; split; [reflexivity|exact I]|].
           constructor; [eexists; split; reflexivity|].
           eapply Forall_impl;
             [apply (about_debugLine config (now m) woken)|].
           intros e He. eexists; split; [reflexivity|exact He].
      * split; [|split; [assumption|now rewrite Hp]].
        split; [assumption|]. split; [assumption|]. split.
        { rewrite Hp. apply keepsStates_refl. }
        destruct Ht as [-> | ->]; cbn [trace]; eexists;
          (split; [rewrite <- ?app_assoc; reflexivity|]).
        -- constructor; [eexists; split; [reflexivity|exact I]|constructor].
        -- constructor; [eexists; split; [reflexivity|exact I]|].
           constructor; [eexists; split; reflexivity|constructor].
    + rewrite (reconcile_io_running dsi tmp config m ds) by assumption.
      unfold withTrace, withSnapshots.
      cbn [final halted previousSnapshots now lastNow world trace].
      split; [|split; [discriminate|now rewrite length_insert]].
      apply (evolves_update _ _ _ ds); [assumption|reflexivity| |].
      { now repeat split. }
      apply (about_debugLine config (now m) (withIo (now m) tmp ds)).
Qed.

(** Whatever the entry and the outcome, [updateState] keeps the clock
    variables and every state at its index with its cached values, touches
    at most the states called like the entry, and never indexes out of
    range. *)
Lemma updateState_evolves tmp config m :
  let o := updateState tmp config m in
  evolves (eq (DiskStats.Name tmp)) m (final o) /\
  halted o <> Some IndexOutOfRange.
Proof.
  intros o. unfold o.
  destruct (Z_lt_dec (previousDiskStatsIndex_loop 0 (previousSnapshots m)
                        (DiskStats.Name tmp)) 0) as [Hneg|Hpos].
  - rewrite updateState_new by assumption. cbn [final halted].
    split; [|discriminate].
    split; [reflexivity|]. split; [reflexivity|]. split; cbn.
    + apply keepsStates_snoc.
    + exists []. split; [now rewrite app_nil_r|constructor].
  - apply Z.nlt_ge in Hpos.
    destruct (index_found _ _ _ eq_refl Hpos) as (ds0 & Hds0 & Hname & _).
    rewrite (updateState_known _ _ _ _ eq_refl) by assumption.
    set (dsi := previousDiskStatsIndex_loop _ _ _) in *.
    destruct (skewCheck_evolves dsi config m ds0 Hpos Hds0)
      as (He & Hh & _).
    rewrite Hname in He.
    destruct (skewCheck dsi config m) as [[] m1|h m1];
      cbn [final halted] in *; [|now split].
    destruct He as (Hn & Hl & Hk & Hnew).
    destruct (Hk _ _ Hds0) as (ds1 & Hds1 & (Hn1 & _) & _).
    destruct (reconcile_evolves dsi tmp config m1 ds1 Hpos Hds1)
      as (He2 & Hh2 & _).
    split; [|assumption].
    eapply evolves_trans;
      [split; [exact Hn|split; [exact Hl|split; [exact Hk|exact Hnew]]]|].
    now rewrite Hn1, Hname in He2.
Qed.

(** *** The loop over the snapshot *)

Lemma loop_cons tmp rest config m :
  ObserveDiskActivity_loop (tmp :: rest) config m =
  match updateState tmp config m with
  | Ok _ m' => ObserveDiskActivity_loop rest config m'
  | Stop h m' => Stop h m'
  end.
Proof. reflexivity. Qed.

Lemma loop_evolves snapshot config m :
  let o := ObserveDiskActivity_loop snapshot config m in
  evolves (fun n => exists tmp, tmp ∈ snapshot /\ DiskStats.Name tmp = n)
    m (final o) /\
  halted o <> Some IndexOutOfRange.
Proof.
  revert m. induction snapshot as [|tmp rest IH]; intros m; cbn zeta.
  - cbn. split; [apply evolves_refl|discriminate].
  - rewrite loop_cons.
    destruct (updateState_evolves tmp config m) as (He & Hh).
    assert (He' : evolves
      (fun n => exists e, e ∈ tmp :: rest /\ DiskStats.Name e = n)
      m (final (updateState tmp config m))).
    { eapply evolves_mono; [|exact He]. intros n <-. exists tmp.
      split; [left|reflexivity]. }
    destruct (updateState tmp config m) as [[] m'|h m'];
      cbn [final halted] in *; [|now split].
    destruct (IH m') as (He2 & Hh2). split; [|assumption].
    eapply evolves_trans; [exact He'|].
    eapply evolves_mono; [|exact He2]. intros n (e & Hin & Hn).
    exists e. split; [now right|assumption].
Qed.

Lemma dev_path_inj (a b : string) : "/dev/" +:+ a = "/dev/" +:+ b -> a = b.
Proof. cbn. intros E. now injection E. Qed.

Lemma Sub_diag (t : Time) : Sub t t = 0.
Proof. unfold Sub. rewrite Z.sub_diag. reflexivity. Qed.

(** An entry with the counters of a spun-down device does nothing to the
    retained states and puts out the debug line only. *)
Lemma updateState_spun_down tmp config m (k : nat) ds :
  previousSnapshots m !! k = Some ds ->
  (forall (j : nat) d, (j < k)%nat -> previousSnapshots m !! j = Some d ->
     DiskStats.Name d <> DiskStats.Name ds) ->
  DiskStats.SpunDown ds = true -> ~ skewed config m ->
  DiskStats.Name tmp = DiskStats.Name ds -> sameCounters ds tmp ->
  updateState tmp config m =
  Ok tt (withTrace (debugLine config (now m) ds) m).
Proof.
  intros Hk Hfirst Hflag Hq Hname Hsame.
  assert (Hidx : previousDiskStatsIndex_loop 0 (previousSnapshots m)
            (DiskStats.Name tmp) = Z.of_nat k).
  { rewrite Hname. now apply (index_first _ _ _ ds). }
  rewrite (updateState_known _ _ _ _ Hidx) by lia.
  rewrite skewCheck_quiet by assumption.
  apply reconcile_idle; [lia|now rewrite Nat2Z.id|assumption|now left].
Qed.

Lemma spun_down_loop snapshot config (k : nat) ds :
  DiskStats.SpunDown ds = true ->
  forall m,
  previousSnapshots m !! k = Some ds ->
  (forall (j : nat) d, (j < k)%nat -> previousSnapshots m !! j = Some d ->
     DiskStats.Name d <> DiskStats.Name ds) ->
  ~ skewed config m ->
  (forall tmp, tmp ∈ snapshot -> DiskStats.Name tmp = DiskStats.Name ds ->
     sameCounters ds tmp) ->
  let o := ObserveDiskActivity_loop snapshot config m in
  let device := "/dev/" +:+ DiskStats.Name ds in
  previousSnapshots (final o) !! k = Some ds /\
  exists new, trace (final o) = trace m ++ new /\
    Forall (fun e => e <> CallStopScsi device /\ e <> CallStopAta device) new.
Proof.
  intros Hflag. induction snapshot as [|tmp rest IH];
    intros m Hk Hfirst Hq Hsame; cbn zeta.
  - cbn. split; [assumption|]. exists [].
    split; [now rewrite app_nil_r|constructor].
  - rewrite loop_cons.
    assert (Hrest : forall e, e ∈ rest ->
              DiskStats.Name e = DiskStats.Name ds -> sameCounters ds e).
    { intros e He. apply Hsame. now right. }
    destruct (decide (DiskStats.Name tmp = DiskStats.Name ds)) as [Hn|Hn].
    + rewrite (updateState_spun_down tmp config m k ds); try assumption.
      2:{ apply Hsame; [left|assumption]. }
      destruct (IH (withTrace (debugLine config (now m) ds) m))
        as (Hk' & new & Ht & Hf); try assumption.
      split; [exact Hk'|].
      exists (debugLine config (now m) ds ++ new).
      split; [rewrite Ht; cbn; lists|].
      apply Forall_app. split; [|assumption].
      unfold debugLine. case_match; repeat constructor; discriminate.
    + destruct (updateState_evolves tmp config m)
        as ((En & El & Ek & new1 & Et & Ef) & _).
      set (u := updateState tmp config m) in *.
      assert (Hk1 : previousSnapshots (final u) !! k = Some ds).
      { destruct (Ek _ _ Hk) as (d' & Hd' & _ & Heq).
        rewrite Hd'. f_equal. apply Heq. congruence. }
      assert (Hfirst1 : forall (j : nat) d, (j < k)%nat ->
                previousSnapshots (final u) !! j = Some d ->
                DiskStats.Name d <> DiskStats.Name ds).
      { intros j d Hj Hd.
        destruct (lookup_lt_is_Some_2 (previousSnapshots m) j) as [d0 Hd0].
        { apply lookup_lt_Some in Hk. lia. }
        destruct (Ek _ _ Hd0) as (d' & Hd' & (Hnm & _) & _).
        rewrite Hd in Hd'. injection Hd' as <-. rewrite Hnm. eauto. }
      assert (Hq1 : ~ skewed config (final u)).
      { unfold skewed in *. now rewrite En, El. }
      assert (Hf1 : Forall (fun e => e <> CallStopScsi
                              ("/dev/" +:+ DiskStats.Name ds) /\
                            e <> CallStopAta ("/dev/" +:+ DiskStats.Name ds))
                      new1).
      { eapply Forall_impl; [exact Ef|]. intros e (n & <- & Ha).
        split; intros ->; cbn in Ha; apply dev_path_inj in Ha; congruence. }
      destruct u as [[] m'|h m']; cbn [final] in *.
      * destruct (IH m' Hk1 Hfirst1 Hq1 Hrest) as (Hk' & new & Ht & Hf).
        split; [exact Hk'|]. exists (new1 ++ new).
        split; [rewrite Ht, Et; lists|now apply Forall_app].
      * split; [exact Hk1|]. exists new1. now split.
Qed.

(** C2: while a tracked device is marked spun down, a pass over a snapshot
    whose entries for that device carry the stored counters, in a cycle in
    which no suspend is assumed, leaves the state of the device exactly as
    it was (counters, timestamps and flag) and calls no stop capability for
    it; each such entry on its own changes no retained state and puts out
    the debug line only.  So a stop command for the device can come only
    after a counter change or the suspend detection has cleared the flag. *)
Theorem C2_no_repeated_spin_down snapshot config m (k : nat) ds :
  previousSnapshots m !! k = Some ds ->
  (forall (j : nat) d, (j < k)%nat -> previousSnapshots m !! j = Some d ->
     DiskStats.Name d <> DiskStats.Name ds) ->
  DiskStats.SpunDown ds = true ->
  Sub (now m) (lastNow m) <= Config.SkewTime config ->
  (forall tmp, tmp ∈ snapshot -> DiskStats.Name tmp = DiskStats.Name ds ->
     DiskStats.Writes ds = DiskStats.Writes tmp /\
     DiskStats.Reads ds = DiskStats.Reads tmp) ->
  let o := ObserveDiskActivity_loop snapshot config m in
  let device := "/dev/" +:+ DiskStats.Name ds in
  previousSnapshots (final o) !! k = Some ds /\
  (exists new, trace (final o) = trace m ++ new /\
     Forall (fun e => e <> CallStopScsi device /\ e <> CallStopAta device)
       new) /\
  (forall tmp, tmp ∈ snapshot -> DiskStats.Name tmp = DiskStats.Name ds ->
     updateState tmp config m =
     Ok tt (withTrace (debugLine config (now m) ds) m)).
Proof.
  intros Hk Hfirst Hflag Hq Hsame o device.
  assert (Hq' : ~ skewed config m) by (unfold skewed; lia).
  destruct (spun_down_loop snapshot config k ds Hflag m Hk Hfirst Hq' Hsame)
    as (Hk' & Hnew).
  split; [exact Hk'|]. split; [exact Hnew|].
  intros tmp Hin Hn.
  apply (updateState_spun_down _ _ _ k); try assumption.
  now apply Hsame.
Qed.

(** The state of a tracked device at the end of a call in which a suspend
    is assumed. *)
Lemma updateState_after_sleep tmp config m dsi ds :
  previousDiskStatsIndex_loop 0 (previousSnapshots m) (DiskStats.Name tmp)
    = dsi ->
  0 <= dsi -> previousSnapshots m !! Z.to_nat dsi = Some ds ->
  skewed config m ->
  exists ds',
    previousSnapshots (final (updateState tmp config m)) !! Z.to_nat dsi
      = Some ds' /\
    DiskStats.SpinUpAt ds' = now m /\ DiskStats.LastIoAt ds' = now m /\
    (0 <= DiskStats.IdleTime ds -> DiskStats.SpunDown ds' = false).
Proof.
  intros Hidx Hpos Hds Hs.
  rewrite (updateState_known _ _ _ _ Hidx) by assumption.
  rewrite (skewCheck_fires _ _ _ ds) by assumption.
  set (ds1 := afterSleep (now m) ds).
  match goal with |- context [logToFile ?f ?x ?y] =>
    destruct (logToFile_final f x y) as (Hp & Hn & Hl & _);
    destruct (logToFile f x y) as [[] m1|h m1]
  end; cbn [final previousSnapshots withSnapshots now lastNow] in *.
  2:{ exists ds1. rewrite Hp. split; [eauto using entry_insert|].
      now cbn. }
  assert (Hds1 : previousSnapshots m1 !! Z.to_nat dsi = Some ds1).
  { rewrite Hp. eauto using entry_insert. }
  destruct (sameCounters_dec ds1 tmp) as [Hsame|Hio].
  - destruct (idleExceeded_dec (now m1) ds1) as [Hf|Hnf].
    + rewrite (reconcile_fire dsi tmp config m1 ds1) by auto.
      unfold withTrace. cbn [final previousSnapshots].
      exists (spunDownAt (now m1) ds1).
      split; [eauto using entry_insert|]. cbn.
      split; [reflexivity|]. split; [reflexivity|]. intros Hidle.
      destruct Hf as (_ & Hgt). cbn in Hgt.
      rewrite Hn, Sub_diag in Hgt. lia.
    + rewrite (reconcile_idle dsi tmp config m1 ds1) by auto.
      unfold withTrace. cbn [final previousSnapshots].
      exists ds1. split; [assumption|now cbn].
  - rewrite (reconcile_io_running dsi tmp config m1 ds1) by auto.
    unfold withTrace, withSnapshots. cbn [final previousSnapshots].
    exists (withIo (now m1) tmp ds1).
    split; [eauto using entry_insert|]. cbn. now rewrite Hn.
Qed.

(** C3 (amended): when [now - lastNow] strictly exceeds the skew time,
    every tracked device that an entry of the snapshot names is, when that
    entry is processed and before its counters are compared, forced to
    spin_up_at = now, last_io_at = now, spun_down = false, whatever its
    counters, and one suspend line naming it goes to the log file when one
    is configured.  At the end of the call its spin_up_at and last_io_at
    are [now], and it is not spun down unless its idle threshold is
    negative.  A tracked device that no entry of the snapshot names is left
    as it was and gets no suspend line. *)
Theorem C3_skew_resets_named_devices tmp config m dsi ds :
  previousDiskStatsIndex_loop 0 (previousSnapshots m) (DiskStats.Name tmp)
    = dsi ->
  0 <= dsi -> previousSnapshots m !! Z.to_nat dsi = Some ds ->
  Sub (now m) (lastNow m) > Config.SkewTime config ->
  let s := skewCheck dsi config m in
  let o := updateState tmp config m in
  let file := DefaultConf.LogFile (Config.Defaults config) in
  let reset :=
    DiskStats.set_SpunDown false
      (DiskStats.set_LastIoAt (now m) (DiskStats.set_SpinUpAt (now m) ds)) in
  previousSnapshots (final s) =
    <[Z.to_nat dsi := reset]> (previousSnapshots m) /\
  (halted s = None ->
   trace (final s) =
     trace m ++ logged file (TxtSpinupAfterSleep (now m) (DiskStats.Name ds)))
  /\
  (String.length file = 0%nat -> halted s = None) /\
  o = match s with
      | Ok _ m1 => reconcile dsi tmp config m1
      | Stop h m' => Stop h m'
      end /\
  (exists ds',
     previousSnapshots (final o) !! Z.to_nat dsi = Some ds' /\
     DiskStats.SpinUpAt ds' = now m /\ DiskStats.LastIoAt ds' = now m /\
     (0 <= DiskStats.IdleTime ds -> DiskStats.SpunDown ds' = false)) /\
  (forall snapshot (k : nat) d,
     previousSnapshots m !! k = Some d ->
     (forall e, e ∈ snapshot -> DiskStats.Name e <> DiskStats.Name d) ->
     let c := ObserveDiskActivity_loop snapshot config m in
     previousSnapshots (final c) !! k = Some d /\
     exists new, trace (final c) = trace m ++ new /\
       forall f (t : Time),
         FileLine f (TxtSpinupAfterSleep t (DiskStats.Name d)) ∉ new).
Proof.
  intros Hidx Hpos Hds Hs s o file reset.
  split; [|split; [|split; [|split; [|split]]]].
  - unfold s. rewrite (skewCheck_fires _ _ _ ds) by assumption.
    destruct (logToFile_final file
      (TxtSpinupAfterSleep (now m) (DiskStats.Name ds))
      (withSnapshots (<[Z.to_nat dsi := afterSleep (now m) ds]>
                        (previousSnapshots m)) m)) as (Hp & _).
    exact Hp.
  - unfold s. rewrite (skewCheck_fires _ _ _ ds) by assumption.
    fold file.
    match goal with |- context [logToFile file ?x ?y] =>
      pose proof (logToFile_ok file x y) as Hok;
      destruct (logToFile file x y) as [[] m1|h m1]
    end; cbn [halted final]; [|discriminate].
    intros _. now destruct (Hok m1 eq_refl) as (_ & _ & _ & ->).
  - intros Hnone. unfold s.
    rewrite (skewCheck_fires _ _ _ ds) by assumption.
    fold file. now rewrite logToFile_no_file.
  - unfold o, s. now apply updateState_known.
  - now apply updateState_after_sleep.
  - intros snapshot k d Hk Hnot c.
    destruct (loop_evolves snapshot config m)
      as ((_ & _ & Ek & new & Et & Ef) & _).
    fold c in Ek, Et. split.
    + destruct (Ek _ _ Hk) as (d' & Hd' & _ & Heq). rewrite Hd'. f_equal.
      apply Heq. intros (e & He & Hn). exact (Hnot e He Hn).
    + exists new. split; [assumption|]. intros f t Hin.
      rewrite Forall_forall in Ef.
      destruct (Ef _ Hin) as (n & (e & He & Hn) & Ha). cbn in Ha.
      apply (Hnot e He). congruence.
Qed.

(** *** resolveSymlinks *)

Lemma unresolved_dec d : {unresolved d} + {~ unresolved d}.
Proof. unfold unresolved. apply Nat.eq_dec. Qed.

Section OneEntry.
Variables (i : nat) (rest : list nat) (config : Config.t)
  (m : Machine World) (device : DeviceConf.t).
Hypothesis Hdev : Config.Devices config !! i = Some device.

Lemma resolve_step_resolved :
  ~ unresolved device ->
  resolveSymlinks_loop (i :: rest) config m =
  resolveSymlinks_loop rest config m.
Proof using Hdev.
  unfold unresolved. intros Hn. cbn [resolveSymlinks_loop]. rewrite Hdev.
  destruct (Nat.eqb_spec (String.length (DeviceConf.Name device)) 0);
    [contradiction|].
  now rewrite bind_run.
Qed.

Lemma resolve_step_failure realPath e w1 :
  unresolved device ->
  io_RealPath (DeviceConf.GivenName device) (world m)
    = ((realPath, Some e), w1) ->
  resolveSymlinks_loop (i :: rest) config m =
  resolveSymlinks_loop rest config
    (mkMachine (previousSnapshots m) (now m) (lastNow m) w1
       (trace m ++ CallRealPath (DeviceConf.GivenName device)
          :: diagnostic config device)).
Proof using Hdev.
  unfold unresolved, diagnostic. intros Hu Hans.
  cbn [resolveSymlinks_loop]. rewrite Hdev, Hu. cbn [Nat.eqb].
  do 3 step. rewrite Hans. cbn [fst snd].
  destruct (DefaultConf.Debug (Config.Defaults config)).
  - step. rewrite <- app_assoc. reflexivity.
  - step. reflexivity.
Qed.

Lemma resolve_step_success realPath w1 :
  unresolved device ->
  io_RealPath (DeviceConf.GivenName device) (world m)
    = ((realPath, None), w1) ->
  resolveSymlinks_loop (i :: rest) config m =
  match
    logToFile (DefaultConf.LogFile (Config.Defaults config))
      (TxtSymlink (DeviceConf.GivenName device) realPath)
      (mkMachine (previousSnapshots m) (now m) (lastNow m) w1
         (trace m ++ [CallRealPath (DeviceConf.GivenName device)]))
  with
  | Ok _ m2 =>
      resolveSymlinks_loop rest
        (Config.set_Devices
           (<[i := DeviceConf.set_Name realPath device]>
              (Config.Devices config)) config) m2
  | Stop h m2 => Stop h m2
  end.
Proof using Hdev.
  unfold unresolved. intros Hu Hans.
  cbn [resolveSymlinks_loop]. rewrite Hdev, Hu. cbn [Nat.eqb].
  do 3 step. rewrite Hans. cbn [fst snd]. step.
  cbn [Config.set_Devices Config.Defaults].
  now destruct (logToFile _ _ _) as [[] m2|h m2].
Qed.
End OneEntry.

Lemma resolves_refl config : resolves config config.
Proof.
  split; [reflexivity|]. split; [reflexivity|]. split; [reflexivity|].
  intros i d Hd. exists d. auto 10.
Qed.

Lemma resolves_trans c1 c2 c3 :
  resolves c1 c2 -> resolves c2 c3 -> resolves c1 c3.
Proof.
  intros (Hd1 & Hs1 & Hl1 & He1) (Hd2 & Hs2 & Hl2 & He2).
  split; [congruence|]. split; [congruence|]. split; [congruence|].
  intros i d Hd.
  destruct (He1 i d Hd) as (d' & Hd' & Hg & Hi & Hc & Hk).
  destruct (He2 i d' Hd') as (d'' & Hd'' & Hg' & Hi' & Hc' & Hk').
  exists d''. split; [assumption|].
  split; [congruence|]. split; [congruence|]. split; [congruence|].
  intros Hu. rewrite <- (Hk Hu). apply Hk'. now rewrite (Hk Hu).
Qed.

Lemma resolves_fill config (i : nat) device realPath :
  Config.Devices config !! i = Some device -> unresolved device ->
  resolves config
    (Config.set_Devices
       (<[i := DeviceConf.set_Name realPath device]> (Config.Devices config))
       config).
Proof.
  intros Hdev Hu. split; [reflexivity|]. split; [reflexivity|].
  cbn [Config.set_Devices Config.Devices].
  split; [apply length_insert|].
  intros j d Hd. destruct (decide (i = j)) as [<-|Hne].
  - rewrite Hdev in Hd. injection Hd as <-.
    exists (DeviceConf.set_Name realPath device).
    split; [eauto using list_lookup_insert_eq, lookup_lt_Some|].
    cbn. repeat (split; [reflexivity|]). tauto.
  - exists d. rewrite list_lookup_insert_ne by assumption. auto 10.
Qed.

Lemma symlinkOutput_back c c' e :
  resolves c c' -> symlinkOutput c' e -> symlinkOutput c e.
Proof.
  intros (Hd & _ & Hl & He) (d' & Hin & Hu & Hwhat).
  apply list_elem_of_lookup in Hin as (j & Hj).
  destruct (lookup_lt_is_Some_2 (Config.Devices c) j) as (d & Hdj).
  { apply lookup_lt_Some in Hj. lia. }
  destruct (He j d Hdj) as (d2 & Hd2 & Hg & _ & _ & Hk).
  rewrite Hj in Hd2. injection Hd2 as <-.
  assert (Hud : unresolved d).
  { destruct (unresolved_dec d) as [|Hn]; [assumption|].
    now rewrite <- (Hk Hn). }
  exists d. split; [eapply list_elem_of_lookup_2; eauto|].
  split; [assumption|]. rewrite <- Hd, <- Hg. exact Hwhat.
Qed.

Lemma resolve_loop_spec range :
  forall config m,
  (forall i : nat, i ∈ range -> (i < length (Config.Devices config))%nat) ->
  let o := resolveSymlinks_loop range config m in
  previousSnapshots (final o) = previousSnapshots m /\
  now (final o) = now m /\ lastNow (final o) = lastNow m /\
  halted o <> Some IndexOutOfRange /\
  (exists new, trace (final o) = trace m ++ new /\
     Forall (symlinkOutput config) new) /\
  (forall config' m', o = Ok config' m' -> resolves config config').
Proof.
  induction range as [|i rest IH]; intros config m Hrange; cbn zeta.
  - cbn. repeat (split; [reflexivity || discriminate|]). split.
    + exists []. split; [now rewrite app_nil_r|constructor].
    + intros ? ? [= <- _]. apply resolves_refl.
  - destruct (lookup_lt_is_Some_2 (Config.Devices config) i)
      as (device & Hdev); [apply Hrange; left|].
    assert (Hrest : forall j : nat, j ∈ rest ->
              (j < length (Config.Devices config))%nat).
    { intros j Hj. apply Hrange. now right. }
    assert (Hin : device ∈ Config.Devices config)
      by (eapply list_elem_of_lookup_2; eauto).
    destruct (unresolved_dec device) as [Hu|Hn].
    2:{ rewrite (resolve_step_resolved _ _ _ _ _ Hdev Hn). now apply IH. }
    destruct (io_RealPath (DeviceConf.GivenName device) (world m))
      as [[realPath [e|]] w1] eqn:Hans.
    + rewrite (resolve_step_failure _ _ _ _ _ Hdev _ _ _ Hu Hans).
      match goal with |- context [resolveSymlinks_loop rest config ?m0] =>
        destruct (IH config m0 Hrest) as (Hp & Hn & Hl & Hh & Hnew & Hres)
      end.
      cbn [previousSnapshots now lastNow trace] in *.
      repeat (split; [assumption|]). split; [|assumption].
      destruct Hnew as (new & -> & Hf). eexists.
      split; [rewrite <- app_assoc; reflexivity|].
      constructor; [exists device; auto|].
      apply Forall_app. split; [|assumption].
      unfold diagnostic.
      destruct (DefaultConf.Debug (Config.Defaults config)) eqn:Hdbg;
        repeat constructor.
      exists device. auto.
    + rewrite (resolve_step_success _ _ _ _ _ Hdev _ _ Hu Hans).
      set (config1 := Config.set_Devices _ config).
      assert (Hfill : resolves config config1)
        by now apply resolves_fill.
      match goal with |- context [logToFile ?f ?x ?y] =>
        destruct (logToFile_final f x y) as (Hp & Hn & Hl & Ht & Hh);
        destruct (logToFile f x y) as [[] m2|h m2]
      end; cbn [final halted previousSnapshots now lastNow trace] in *.
      * destruct (IH config1 m2) as (Hp2 & Hn2 & Hl2 & Hh2 & Hnew & Hres).
        { intros j Hj. destruct Hfill as (_ & _ & -> & _). auto. }
        split; [congruence|]. split; [congruence|]. split; [congruence|].
        split; [assumption|]. split.
        -- destruct Hnew as (new & -> & Hf).
           assert (Hf' : Forall (symlinkOutput config) new).
           { eapply Forall_impl; [exact Hf|].
             intros e. now apply symlinkOutput_back. }
           destruct Ht as [-> | ->]; eexists;
             (split; [rewrite <- ?app_assoc; reflexivity|]).
           ++ constructor; [exists device; auto|assumption].
           ++ constructor; [exists device; auto|].
              constructor; [exists device; auto|assumption].
        -- intros config' m' Ho.
           eapply resolves_trans; [exact Hfill|eauto].
      * repeat (split; [assumption|]). split; [|discriminate].
        destruct Ht as [-> | ->]; eexists;
          (split; [rewrite <- ?app_assoc; reflexivity|]).
        -- constructor; [exists device; auto|constructor].
        -- constructor; [exists device; auto|].
           constructor; [exists device; auto|constructor].
Qed.

Lemma resolve_loop_all_resolved range :
  forall config m,
  (forall i : nat, i ∈ range -> (i < length (Config.Devices config))%nat) ->
  (forall d, d ∈ Config.Devices config -> ~ unresolved d) ->
  resolveSymlinks_loop range config m = Ok config m.
Proof.
  induction range as [|i rest IH]; intros config m Hrange Hall;
    [reflexivity|].
  destruct (lookup_lt_is_Some_2 (Config.Devices config) i)
    as (device & Hdev); [apply Hrange; left|].
  rewrite (resolve_step_resolved _ _ _ _ _ Hdev).
  - apply IH; [|assumption]. intros j Hj. apply Hrange. now right.
  - apply Hall. eapply list_elem_of_lookup_2; eauto.
Qed.

Lemma seq_range (n i : nat) : i ∈ seq 0 n -> (i < n)%nat.
Proof. rewrite list_elem_of_In, in_seq. lia. Qed.

Lemma resolveSymlinks_spec config m :
  let o := resolveSymlinks config m in
  previousSnapshots (final o) = previousSnapshots m /\
  now (final o) = now m /\ lastNow (final o) = lastNow m /\
  halted o <> Some IndexOutOfRange /\
  (exists new, trace (final o) = trace m ++ new /\
     Forall (symlinkOutput config) new) /\
  (forall config' m', o = Ok config' m' -> resolves config config').
Proof.
  unfold resolveSymlinks.
  destruct (DefaultConf.SymlinkPolicy (Config.Defaults config) =? 0).
  - cbn. repeat (split; [reflexivity || discriminate|]). split.
    + exists []. split; [now rewrite app_nil_r|constructor].
    + intros ? ? [= <- _]. apply resolves_refl.
  - apply resolve_loop_spec. intros i. apply seq_range.
Qed.

(** C9: [resolveSymlinks] changes nothing when the symlink policy is 0 and
    nothing when every configured device has a canonical name, so it can run
    in every cycle.  In general it calls [io.RealPath] only for configured
    devices whose canonical name is empty, leaves every other entry as it
    is, and fills in nothing but canonical names.  When the resolution of an
    entry fails, the configuration is left as it was, the diagnostic is
    printed if and only if the debug flag is set, and the loop goes on with
    the next entry. *)
Theorem C9_resolver_idempotent_non_fatal config m :
  let o := resolveSymlinks config m in
  (DefaultConf.SymlinkPolicy (Config.Defaults config) = 0 ->
   o = Ok config m) /\
  ((forall d, d ∈ Config.Devices config ->
      String.length (DeviceConf.Name d) <> 0%nat) ->
   o = Ok config m) /\
  halted o <> Some IndexOutOfRange /\
  previousSnapshots (final o) = previousSnapshots m /\
  (exists new, trace (final o) = trace m ++ new /\
     Forall (symlinkOutput config) new) /\
  (forall config' m', o = Ok config' m' -> resolves config config') /\
  (forall (i : nat) rest c m0 device realPath e w1,
     Config.Devices c !! i = Some device ->
     String.length (DeviceConf.Name device) = 0%nat ->
     io_RealPath (DeviceConf.GivenName device) (world m0)
       = ((realPath, Some e), w1) ->
     resolveSymlinks_loop (i :: rest) c m0 =
     resolveSymlinks_loop rest c
       (mkMachine (previousSnapshots m0) (now m0) (lastNow m0) w1
          (trace m0 ++ CallRealPath (DeviceConf.GivenName device)
             :: (if DefaultConf.Debug (Config.Defaults c)
                 then [Console ("Cannot resolve sysmlink "
                                  +:+ DeviceConf.GivenName device +:+ nl)]
                 else [])))).
Proof.
  intros o.
  destruct (resolveSymlinks_spec config m) as (Hp & _ & _ & Hh & Hnew & Hres).
  split; [|split].
  - intros Hpol. unfold o, resolveSymlinks. now rewrite Hpol.
  - intros Hall. unfold o, resolveSymlinks. case_match; [reflexivity|].
    apply resolve_loop_all_resolved; [intros i; apply seq_range|exact Hall].
  - repeat (split; [assumption|]).
    intros i rest c m0 device realPath e w1 Hdev Hu Hans.
    now apply (resolve_step_failure _ _ _ _ _ Hdev realPath e w1).
Qed.

(** *** A whole cycle *)

Lemma ObserveDiskActivity_keeps config m :
  let o := ObserveDiskActivity config m in
  keepsStates (fun _ => True) (previousSnapshots m)
    (previousSnapshots (final o)) /\
  halted o <> Some IndexOutOfRange.
Proof.
  unfold ObserveDiskActivity. do 3 step. rewrite bind_run.
  match goal with |- context [resolveSymlinks config ?m0] =>
    destruct (resolveSymlinks_spec config m0) as (Hp & _ & _ & Hh & _);
    destruct (resolveSymlinks config m0) as [config' m1|h m1]
  end; cbn [final halted previousSnapshots] in *.
  2:{ rewrite Hp. split; [apply keepsStates_refl|assumption]. }
  rewrite bind_run.
  match goal with |- context [ObserveDiskActivity_loop ?s config' m1] =>
    destruct (loop_evolves s config' m1) as ((_ & _ & Hk & _) & Hh2);
    destruct (ObserveDiskActivity_loop s config' m1) as [[] m2|h m2]
  end; cbn [final halted] in *.
  - do 2 step. split; [|discriminate].
    rewrite <- Hp. eapply keepsStates_mono; [|exact Hk]. auto.
  - split; [|assumption].
    rewrite <- Hp. eapply keepsStates_mono; [|exact Hk]. auto.
Qed.

Lemma updateState_length tmp config m :
  0 <= previousDiskStatsIndex_loop 0 (previousSnapshots m)
         (DiskStats.Name tmp) ->
  length (previousSnapshots (final (updateState tmp config m)))
  = length (previousSnapshots m).
Proof.
  intros Hpos.
  destruct (index_found _ _ _ eq_refl Hpos) as (ds0 & Hds0 & _).
  rewrite (updateState_known _ _ _ _ eq_refl) by assumption.
  set (dsi := previousDiskStatsIndex_loop _ _ _) in *.
  destruct (skewCheck_evolves dsi config m ds0 Hpos Hds0)
    as ((_ & _ & Hk & _) & _ & Hlen).
  destruct (skewCheck dsi config m) as [[] m1|h m1]; cbn [final] in *;
    [|assumption].
  destruct (Hk _ _ Hds0) as (ds1 & Hds1 & _).
  destruct (reconcile_evolves dsi tmp config m1 ds1 Hpos Hds1)
    as (_ & _ & Hlen2).
  congruence.
Qed.

(** *** deviceConfig *)

Lemma deviceConfig_loop_first devices n (k : nat) d :
  devices !! k = Some d -> DeviceConf.Name d = n ->
  (forall (j : nat) d', (j < k)%nat -> devices !! j = Some d' ->
     DeviceConf.Name d' <> n) ->
  deviceConfig_loop devices n = Some d.
Proof.
  revert k. induction devices as [|x l IH]; intros k Hk Hn Hfirst;
    [discriminate|].
  cbn. destruct k as [|k].
  - injection Hk as ->. rewrite Hn, String.eqb_refl. reflexivity.
  - destruct (String.eqb_spec (DeviceConf.Name x) n) as [E|E].
    + exfalso. apply (Hfirst 0%nat x); [lia|reflexivity|assumption].
    + apply (IH k); [assumption..|].
      intros j d' Hj Hd'. apply (Hfirst (S j)); [lia|assumption].
Qed.

Lemma deviceConfig_loop_none devices n :
  (forall d, d ∈ devices -> DeviceConf.Name d <> n) ->
  deviceConfig_loop devices n = None.
Proof.
  induction devices as [|x l IH]; intros Hall; [reflexivity|]. cbn.
  destruct (String.eqb_spec (DeviceConf.Name x) n) as [E|E].
  - exfalso. apply (Hall x); [left|assumption].
  - apply IH. intros d Hd. apply Hall. now right.
Qed.

Lemma deviceConfig_loop_some devices n d :
  deviceConfig_loop devices n = Some d ->
  d ∈ devices /\ DeviceConf.Name d = n.
Proof.
  induction devices as [|x l IH]; [discriminate|]. cbn.
  destruct (String.eqb_spec (DeviceConf.Name x) n) as [E|E].
  - intros [= <-]. split; [left|assumption].
  - intros Hd. destruct (IH Hd). split; [now right|assumption].
Qed.

(** C7: [deviceConfig] is a function of the name and the configuration
    alone.  It returns the first override whose canonical name is the
    device name, and the defaults when no override has that name; the state
    created at first observation takes its idle threshold and command type
    from it.  For a device that is already tracked [updateState] does not
    look at the overrides at all, and no cycle changes the idle threshold
    or the command type of a retained state. *)
Theorem C7_device_configuration_lookup :
  (forall diskName config,
     (forall (k : nat) d,
        Config.Devices config !! k = Some d ->
        DeviceConf.Name d = diskName ->
        (forall (j : nat) d', (j < k)%nat ->
           Config.Devices config !! j = Some d' ->
           DeviceConf.Name d' <> diskName) ->
        deviceConfig diskName config = Some d) /\
     ((forall d, d ∈ Config.Devices config ->
         DeviceConf.Name d <> diskName) ->
      deviceConfig diskName config =
      Some (DeviceConf.mk diskName ""
              (DefaultConf.Idle (Config.Defaults config))
              (DefaultConf.CommandType (Config.Defaults config))))) /\
  (forall tmp config (m : Machine World),
     previousDiskStatsIndex_loop 0 (previousSnapshots m) (DiskStats.Name tmp)
       < 0 ->
     exists dc d,
       deviceConfig (DiskStats.Name tmp) config = Some dc /\
       previousSnapshots (final (updateState tmp config m))
         = previousSnapshots m ++ [d] /\
       DiskStats.IdleTime d = DeviceConf.Idle dc /\
       DiskStats.CommandType d = DeviceConf.CommandType dc) /\
  (forall tmp config config' (m : Machine World),
     0 <= previousDiskStatsIndex_loop 0 (previousSnapshots m)
            (DiskStats.Name tmp) ->
     Config.Defaults config' = Config.Defaults config ->
     Config.SkewTime config' = Config.SkewTime config ->
     updateState tmp config' m = updateState tmp config m) /\
  (forall config (m : Machine World) (i : nat) ds,
     previousSnapshots m !! i = Some ds ->
     exists ds',
       previousSnapshots (final (ObserveDiskActivity config m)) !! i
         = Some ds' /\
       DiskStats.IdleTime ds' = DiskStats.IdleTime ds /\
       DiskStats.CommandType ds' = DiskStats.CommandType ds).
Proof.
  split; [|split; [|split]].
  - intros diskName config. split.
    + intros k d Hk Hn Hfirst. unfold deviceConfig.
      now rewrite (deviceConfig_loop_first _ _ k d).
    + intros Hall. unfold deviceConfig.
      now rewrite deviceConfig_loop_none.
  - intros tmp config m Hneg.
    rewrite updateState_new by assumption. cbn [final previousSnapshots].
    match goal with |- context [created tmp config ?a ?b] =>
      destruct (created_spec tmp config a b) as (dc & Hdc & Hd)
    end.
    exists dc. eexists. split; [exact Hdc|]. split; [reflexivity|].
    rewrite Hd. split; reflexivity.
  - intros tmp config config' m Hpos Hd Hs.
    rewrite !(updateState_known _ _ _ _ eq_refl) by assumption.
    unfold skewCheck, reconcile. now rewrite Hd, Hs.
  - intros config m i ds Hi.
    destruct (ObserveDiskActivity_keeps config m) as (Hk & _).
    destruct (Hk i ds Hi) as (ds' & Hi' & (_ & Hidle & Hcmd) & _).
    eauto.
Qed.

(** C8: the retained states only grow.  A call of [updateState] appends
    one state, named like the entry, exactly when no retained state has the
    name of the entry; otherwise the list keeps its length and the state
    the call works on is the first one with that name.  In both cases every
    state that was there is still there at its index under its name, and so
    it is after a whole cycle. *)
Theorem C8_states_only_grow :
  (forall tmp config (m : Machine World),
     let o := updateState tmp config m in
     let idx :=
       previousDiskStatsIndex_loop 0 (previousSnapshots m)
         (DiskStats.Name tmp) in
     (idx < 0 ->
      (forall d, d ∈ previousSnapshots m ->
         DiskStats.Name d <> DiskStats.Name tmp) /\
      exists d, previousSnapshots (final o) = previousSnapshots m ++ [d] /\
        DiskStats.Name d = DiskStats.Name tmp) /\
     (0 <= idx ->
      length (previousSnapshots (final o)) = length (previousSnapshots m) /\
      exists ds, previousSnapshots m !! Z.to_nat idx = Some ds /\
        DiskStats.Name ds = DiskStats.Name tmp /\
        forall (j : nat) d, (j < Z.to_nat idx)%nat ->
          previousSnapshots m !! j = Some d ->
          DiskStats.Name d <> DiskStats.Name tmp) /\
     (forall (i : nat) ds, previousSnapshots m !! i = Some ds ->
        exists ds', previousSnapshots (final o) !! i = Some ds' /\
          DiskStats.Name ds' = DiskStats.Name ds)) /\
  (forall config (m : Machine World) (i : nat) ds,
     previousSnapshots m !! i = Some ds ->
     exists ds',
       previousSnapshots (final (ObserveDiskActivity config m)) !! i
         = Some ds' /\
       DiskStats.Name ds' = DiskStats.Name ds).
Proof.
  split.
  - intros tmp config m o idx. split; [|split].
    + intros Hneg. split.
      * intros d Hd. apply list_elem_of_lookup in Hd as (j & Hj).
        eapply index_loop_missing; [|exact Hneg|exact Hj]. lia.
      * unfold o. rewrite updateState_new by assumption.
        cbn [final previousSnapshots]. eexists. split; [reflexivity|].
        match goal with |- context [created tmp config ?a ?b] =>
          destruct (created_spec tmp config a b) as (dc & _ & ->)
        end. reflexivity.
    + intros Hpos. split; [now apply updateState_length|].
      now apply index_found.
    + intros i ds Hi.
      destruct (updateState_evolves tmp config m) as ((_ & _ & Hk & _) & _).
      destruct (Hk i ds Hi) as (ds' & Hi' & (Hn & _) & _). eauto.
  - intros config m i ds Hi.
    destruct (ObserveDiskActivity_keeps config m) as (Hk & _).
    destruct (Hk i ds Hi) as (ds' & Hi' & (Hn & _) & _). eauto.
Qed.

(** ** Further facts on the engine *)

Lemma sameCountersb_spec ds tmp :
  reflect (sameCounters ds tmp) (sameCountersb ds tmp).
Proof.
  destruct (sameCounters_dec ds tmp) as [Hs|Hn].
  - unfold sameCountersb. rewrite (sameCounters_true _ _ Hs). now constructor.
  - unfold sameCountersb. rewrite (sameCounters_false _ _ Hn).
    now constructor.
Qed.

Lemma idleExceededb_spec (t : Time) ds :
  reflect (idleExceeded t ds) (idleExceededb t ds).
Proof.
  destruct (idleExceeded_dec t ds) as [Hs|Hn].
  - unfold idleExceededb. rewrite (idleExceeded_true _ _ Hs).
    now constructor.
  - unfold idleExceededb. rewrite (idleExceeded_false _ _ Hn).
    now constructor.
Qed.

Lemma skewedb_spec config m : reflect (skewed config m) (skewedb config m).
Proof.
  unfold skewed, skewedb.
  destruct (Sub (now m) (lastNow m) >? Config.SkewTime config) eqn:E;
    constructor.
  - apply Z.gtb_lt in E. lia.
  - intros Hgt. apply Z.gt_lt, Z.gtb_lt in Hgt. congruence.
Qed.

(** The retained states after [reconcile], whether it ends or stops. *)
Lemma reconcile_states dsi tmp config m ds :
  0 <= dsi -> previousSnapshots m !! Z.to_nat dsi = Some ds ->
  let o := reconcile dsi tmp config m in
  (halted o = None ->
   previousSnapshots (final o) =
     <[Z.to_nat dsi := reconciled (now m) tmp ds]> (previousSnapshots m)) /\
  (halted o <> None -> previousSnapshots (final o) = previousSnapshots m).
Proof.
  intros Hi Hds o. unfold o, reconciled.
  destruct (sameCountersb_spec ds tmp) as [Hsame|Hio].
  - destruct (DiskStats.SpunDown ds) eqn:Hflag; cbn [negb andb].
    + rewrite (reconcile_idle dsi tmp config m ds) by auto.
      cbn. split; [|congruence]. intros _. symmetry.
      now apply list_insert_id.
    + destruct (idleExceededb_spec (now m) ds) as [Hf|Hnf].
      * rewrite (reconcile_fire dsi tmp config m ds) by assumption.
        cbn. split; [reflexivity|congruence].
      * rewrite (reconcile_idle dsi tmp config m ds) by auto.
        cbn. split; [|congruence]. intros _. symmetry.
        now apply list_insert_id.
  - destruct (DiskStats.SpunDown ds) eqn:Hflag.
    + rewrite (reconcile_io_stopped dsi tmp config m ds) by assumption.
      match goal with |- context [logToFile ?f ?x ?y] =>
        destruct (logToFile_final f x y) as (Hp & _);
        destruct (logToFile f x y) as [[] m2|h m2]
      end; cbn [final halted previousSnapshots withTrace withSnapshots] in *.
      * split; [reflexivity|congruence].
      * split; [discriminate|]. now intros _.
    + rewrite (reconcile_io_running dsi tmp config m ds) by assumption.
      cbn. split; [reflexivity|congruence].
Qed.

Lemma updateState_states tmp config m dsi ds :
  previousDiskStatsIndex_loop 0 (previousSnapshots m) (DiskStats.Name tmp)
    = dsi ->
  0 <= dsi -> previousSnapshots m !! Z.to_nat dsi = Some ds ->
  let o := updateState tmp config m in
  halted o <> Some IndexOutOfRange /\
  (halted o = None ->
   previousSnapshots (final o) =
     <[Z.to_nat dsi := nextState config m tmp ds]> (previousSnapshots m)) /\
  (halted o <> None ->
   previousSnapshots (final o) =
     <[Z.to_nat dsi := seen config m ds]> (previousSnapshots m)).
Proof.
  intros Hidx Hpos Hds o.
  split; [apply updateState_evolves|].
  unfold o, nextState, seen.
  rewrite (updateState_known _ _ _ _ Hidx) by assumption.
  destruct (skewedb_spec config m) as [Hs|Hq].
  - rewrite (skewCheck_fires _ _ _ ds) by assumption.
    match goal with |- context [logToFile ?f ?x ?y] =>
      destruct (logToFile_final f x y) as (Hp & Hn & _);
      destruct (logToFile f x y) as [[] m1|h m1]
    end; cbn [final halted previousSnapshots withSnapshots now] in *.
    + assert (Hds1 : previousSnapshots m1 !! Z.to_nat dsi
                     = Some (afterSleep (now m) ds)).
      { rewrite Hp. eauto using entry_insert. }
      destruct (reconcile_states dsi tmp config m1 _ Hpos Hds1)
        as (Hok & Hstop).
      rewrite Hp, Hn, list_insert_insert_eq in Hok. rewrite Hp in Hstop.
      split; assumption.
    + split; [discriminate|]. now intros _.
  - rewrite skewCheck_quiet by assumption.
    destruct (reconcile_states dsi tmp config m ds Hpos Hds) as (Hok & Hstop).
    split; [assumption|]. intros Hh. rewrite (Hstop Hh). symmetry.
    now apply list_insert_id.
Qed.

(** X1: for a tracked device a call of [updateState] that runs to its end
    replaces the first state with the name of the entry by [nextState] of
    it, a function of the entry, the two clock variables, the skew time and
    that state alone, and changes no other retained state.  A call that a
    log failure stops leaves the state as the skew check made it. *)
Theorem X1_updateState_is_nextState tmp config m dsi ds :
  previousDiskStatsIndex_loop 0 (previousSnapshots m) (DiskStats.Name tmp)
    = dsi ->
  0 <= dsi -> previousSnapshots m !! Z.to_nat dsi = Some ds ->
  let o := updateState tmp config m in
  halted o <> Some IndexOutOfRange /\
  (halted o = None ->
   previousSnapshots (final o) =
     <[Z.to_nat dsi := nextState config m tmp ds]> (previousSnapshots m)) /\
  (halted o <> None ->
   previousSnapshots (final o) =
     <[Z.to_nat dsi := seen config m ds]> (previousSnapshots m)).
Proof. exact (updateState_states tmp config m dsi ds). Qed.

(** *** Properties kept by every call and every cycle *)

Lemma updateState_Forall (Q : DiskStats.t -> Prop) :
  (forall (t : Time) tmp ds, Q ds -> Q (reconciled t tmp ds)) ->
  (forall (t : Time) ds, Q ds -> Q (afterSleep t ds)) ->
  (forall tmp config (a b : Time), Q (created tmp config a b)) ->
  forall tmp config m,
  Forall Q (previousSnapshots m) ->
  Forall Q (previousSnapshots (final (updateState tmp config m))).
Proof.
  intros Hrec Hsleep Hnew tmp config m Hall.
  destruct (Z_lt_dec (previousDiskStatsIndex_loop 0 (previousSnapshots m)
                        (DiskStats.Name tmp)) 0) as [Hneg|Hpos].
  - rewrite updateState_new by assumption. cbn [final previousSnapshots].
    apply Forall_app. split; [assumption|]. constructor; [apply Hnew|].
    constructor.
  - apply Z.nlt_ge in Hpos.
    destruct (index_found _ _ _ eq_refl Hpos) as (ds & Hds & _).
    destruct (updateState_states tmp config m _ ds eq_refl Hpos Hds)
      as (_ & Hok & Hstop).
    assert (Qds : Q ds) by (eapply Forall_lookup_1; eauto).
    assert (Qseen : Q (seen config m ds)).
    { unfold seen. destruct (skewedb config m); auto. }
    destruct (halted (updateState tmp config m)) eqn:Hh.
    + rewrite Hstop by discriminate. now apply Forall_insert.
    + rewrite Hok by reflexivity. apply Forall_insert; [assumption|].
      unfold nextState. auto.
Qed.

Lemma loop_preserves (P : list DiskStats.t -> Prop) :
  (forall tmp config m, P (previousSnapshots m) ->
     P (previousSnapshots (final (updateState tmp config m)))) ->
  forall snapshot config m, P (previousSnapshots m) ->
  P (previousSnapshots (final (ObserveDiskActivity_loop snapshot config m))).
Proof.
  intros Hstep snapshot config.
  induction snapshot as [|tmp rest IH]; intros m HP; [exact HP|].
  rewrite loop_cons. specialize (Hstep tmp config m HP).
  destruct (updateState tmp config m) as [[] m'|h m']; cbn [final] in *;
    auto.
Qed.

Lemma cycle_preserves (P : list DiskStats.t -> Prop) :
  (forall tmp config m, P (previousSnapshots m) ->
     P (previousSnapshots (final (updateState tmp config m)))) ->
  forall config m, P (previousSnapshots m) ->
  P (previousSnapshots (final (ObserveDiskActivity config m))).
Proof.
  intros Hstep config m HP.
  unfold ObserveDiskActivity. do 3 step. rewrite bind_run.
  match goal with |- context [resolveSymlinks config ?m0] =>
    destruct (resolveSymlinks_spec config m0) as (Hp & _);
    destruct (resolveSymlinks config m0) as [config' m1|h m1]
  end; cbn [final previousSnapshots] in *; [|now rewrite Hp].
  rewrite bind_run. rewrite <- Hp in HP.
  match goal with |- context [ObserveDiskActivity_loop ?s config' m1] =>
    pose proof (loop_preserves P Hstep s config' m1 HP) as Hl;
    destruct (ObserveDiskActivity_loop s config' m1) as [[] m2|h m2]
  end; cbn [final] in *; [|exact Hl].
  do 2 step. exact Hl.
Qed.

Lemma justified_reconciled (t : Time) tmp ds :
  justified ds -> justified (reconciled t tmp ds).
Proof.
  unfold reconciled. intros Hj.
  destruct (sameCountersb ds tmp).
  - destruct (DiskStats.SpunDown ds) eqn:Hflag; cbn [negb andb];
      [assumption|].
    destruct (idleExceededb_spec t ds) as [Hf|Hnf]; [|assumption].
    intros _. exact Hf.
  - intros Hflag. discriminate Hflag.
Qed.

Lemma justified_afterSleep (t : Time) ds : justified (afterSleep t ds).
Proof. intros Hflag. discriminate Hflag. Qed.

Lemma justified_created tmp config (a b : Time) :
  justified (created tmp config a b).
Proof.
  destruct (created_spec tmp config a b) as (dc & _ & ->).
  intros Hflag. discriminate Hflag.
Qed.

(** X2: if every retained state that is marked spun down has a threshold
    that is not zero and that the time from its last I/O to its spin-down
    exceeded, the same holds after a cycle, however the cycle ends.  So a
    device whose idle threshold is 0 is never marked spun down by any run
    of cycles that starts without spun-down states. *)
Theorem X2_spun_down_is_justified config m :
  Forall justified (previousSnapshots m) ->
  let l' := previousSnapshots (final (ObserveDiskActivity config m)) in
  Forall justified l' /\
  (forall ds, ds ∈ l' -> DiskStats.IdleTime ds = 0 ->
     DiskStats.SpunDown ds = false).
Proof.
  intros Hall l'.
  assert (Hj : Forall justified l').
  { unfold l'. apply (cycle_preserves (Forall justified)); [|assumption].
    intros tmp c m0. apply updateState_Forall;
      auto using justified_reconciled, justified_afterSleep,
                 justified_created. }
  split; [assumption|]. intros ds Hin Hz.
  rewrite Forall_forall in Hj. specialize (Hj ds Hin).
  destruct (DiskStats.SpunDown ds) eqn:Hflag; [|reflexivity].
  destruct (Hj Hflag) as (Hnz & _). contradiction.
Qed.

Lemma name_reconciled (t : Time) tmp ds :
  DiskStats.Name (reconciled t tmp ds) = DiskStats.Name ds.
Proof.
  unfold reconciled. repeat case_match; reflexivity.
Qed.

Lemma name_seen config m ds : DiskStats.Name (seen config m ds) = DiskStats.Name ds.
Proof. unfold seen. case_match; reflexivity. Qed.

Lemma names_insert l (k : nat) ds x :
  l !! k = Some ds -> DiskStats.Name x = DiskStats.Name ds ->
  names (<[k := x]> l) = names l.
Proof.
  intros Hk Hn. unfold names. rewrite list_fmap_insert.
  apply list_insert_id. now rewrite list_lookup_fmap, Hk, Hn.
Qed.

(** The names after a call: one more, at the end, exactly when the name of
    the entry was not there. *)
Lemma updateState_names tmp config m :
  names (previousSnapshots (final (updateState tmp config m))) =
  names (previousSnapshots m)
  ++ (if previousDiskStatsIndex_loop 0 (previousSnapshots m)
           (DiskStats.Name tmp) <? 0
      then [DiskStats.Name tmp] else []).
Proof.
  destruct (Z.ltb_spec (previousDiskStatsIndex_loop 0 (previousSnapshots m)
                          (DiskStats.Name tmp)) 0) as [Hneg|Hpos].
  - rewrite updateState_new by assumption. cbn [final previousSnapshots].
    unfold names. rewrite fmap_app. cbn. f_equal.
    match goal with |- context [created tmp config ?a ?b] =>
      destruct (created_spec tmp config a b) as (dc & _ & ->)
    end. reflexivity.
  - destruct (index_found _ _ _ eq_refl Hpos) as (ds & Hds & _).
    destruct (updateState_states tmp config m _ ds eq_refl Hpos Hds)
      as (_ & Hok & Hstop).
    rewrite app_nil_r.
    destruct (halted (updateState tmp config m)) eqn:Hh.
    + rewrite Hstop by discriminate.
      apply (names_insert _ _ ds); [assumption|apply name_seen].
    + rewrite Hok by reflexivity.
      apply (names_insert _ _ ds); [assumption|].
      unfold nextState. now rewrite name_reconciled, name_seen.
Qed.

Lemma index_missing_names l n :
  previousDiskStatsIndex_loop 0 l n < 0 -> n ∉ names l.
Proof.
  intros Hneg Hin. unfold names in Hin.
  apply list_elem_of_fmap in Hin as (d & -> & Hd).
  apply list_elem_of_lookup in Hd as (j & Hj).
  eapply (index_loop_missing l 0); eauto. lia.
Qed.

(** X3: the names of the retained states stay pairwise distinct: if they
    are before a cycle, they are after it, however the cycle ends. *)
Theorem X3_names_stay_distinct config m :
  NoDup (names (previousSnapshots m)) ->
  NoDup (names (previousSnapshots (final (ObserveDiskActivity config m)))).
Proof.
  apply (cycle_preserves (fun l => NoDup (names l))).
  intros tmp c m0 Hnd. rewrite updateState_names.
  destruct (Z.ltb_spec (previousDiskStatsIndex_loop 0 (previousSnapshots m0)
                          (DiskStats.Name tmp)) 0) as [Hneg|Hpos].
  - apply NoDup_app. split; [assumption|]. split; [|apply NoDup_singleton].
    intros n Hn Hin. apply list_elem_of_singleton in Hin as ->.
    now apply (index_missing_names _ _ Hneg).
  - now rewrite app_nil_r.
Qed.

(** *** What stops the process *)

Lemma reconcile_no_log dsi tmp config m ds :
  0 <= dsi -> previousSnapshots m !! Z.to_nat dsi = Some ds ->
  String.length (DefaultConf.LogFile (Config.Defaults config)) = 0%nat ->
  halted (reconcile dsi tmp config m) = None.
Proof.
  intros Hi Hds Hlog.
  destruct (sameCounters_dec ds tmp) as [Hsame|Hio].
  - destruct (DiskStats.SpunDown ds) eqn:Hflag.
    + now rewrite (reconcile_idle dsi tmp config m ds) by auto.
    + destruct (idleExceeded_dec (now m) ds) as [Hf|Hnf].
      * now rewrite (reconcile_fire dsi tmp config m ds) by assumption.
      * now rewrite (reconcile_idle dsi tmp config m ds) by auto.
  - destruct (DiskStats.SpunDown ds) eqn:Hflag.
    + rewrite (reconcile_io_stopped dsi tmp config m ds) by assumption.
      now rewrite logToFile_no_file.
    + now rewrite (reconcile_io_running dsi tmp config m ds) by assumption.
Qed.

Lemma updateState_no_log tmp config m :
  String.length (DefaultConf.LogFile (Config.Defaults config)) = 0%nat ->
  halted (updateState tmp config m) = None.
Proof.
  intros Hlog.
  destruct (Z_lt_dec (previousDiskStatsIndex_loop 0 (previousSnapshots m)
                        (DiskStats.Name tmp)) 0) as [Hneg|Hpos].
  - now rewrite updateState_new.
  - apply Z.nlt_ge in Hpos.
    destruct (index_found _ _ _ eq_refl Hpos) as (ds & Hds & _).
    rewrite (updateState_known _ _ _ _ eq_refl) by assumption.
    destruct (skewed_dec config m) as [Hs|Hq].
    + rewrite (skewCheck_fires _ _ _ ds), logToFile_no_file by assumption.
      eapply reconcile_no_log; [assumption| |assumption].
      cbn. eauto using entry_insert.
    + rewrite skewCheck_quiet by assumption.
      eapply reconcile_no_log; eassumption.
Qed.

Lemma loop_no_log snapshot config :
  String.length (DefaultConf.LogFile (Config.Defaults config)) = 0%nat ->
  forall m, halted (ObserveDiskActivity_loop snapshot config m) = None.
Proof.
  intros Hlog. induction snapshot as [|tmp rest IH]; intros m;
    [reflexivity|].
  rewrite loop_cons. pose proof (updateState_no_log tmp config m Hlog) as Hu.
  destruct (updateState tmp config m) as [[] m'|h m']; [apply IH|].
  discriminate Hu.
Qed.

Lemma resolve_loop_no_log range :
  forall config m,
  (forall i : nat, i ∈ range -> (i < length (Config.Devices config))%nat) ->
  String.length (DefaultConf.LogFile (Config.Defaults config)) = 0%nat ->
  exists config' m',
    resolveSymlinks_loop range config m = Ok config' m' /\
    Config.Defaults config' = Config.Defaults config.
Proof.
  induction range as [|i rest IH]; intros config m Hrange Hlog.
  - exists config, m. now split.
  - destruct (lookup_lt_is_Some_2 (Config.Devices config) i)
      as (device & Hdev); [apply Hrange; left|].
    assert (Hrest : forall j : nat, j ∈ rest ->
              (j < length (Config.Devices config))%nat).
    { intros j Hj. apply Hrange. now right. }
    destruct (unresolved_dec device) as [Hu|Hn].
    2:{ rewrite (resolve_step_resolved _ _ _ _ _ Hdev Hn). now apply IH. }
    destruct (io_RealPath (DeviceConf.GivenName device) (world m))
      as [[realPath [e|]] w1] eqn:Hans.
    + rewrite (resolve_step_failure _ _ _ _ _ Hdev _ _ _ Hu Hans).
      now apply IH.
    + rewrite (resolve_step_success _ _ _ _ _ Hdev _ _ Hu Hans).
      rewrite logToFile_no_file by assumption.
      match goal with |- context [resolveSymlinks_loop rest ?c ?m0] =>
        destruct (IH c m0) as (config' & m' & Hrun & Hd)
      end.
      * intros j Hj. cbn. rewrite length_insert. auto.
      * exact Hlog.
      * exists config', m'. split; [assumption|]. exact Hd.
Qed.

(** X4: a cycle never indexes [previousSnapshots] or [config.Devices] out
    of range, and with no log file configured nothing stops it: it always
    runs to its end. *)
Theorem X4_only_the_log_file_stops_a_cycle config m :
  let o := ObserveDiskActivity config m in
  halted o <> Some IndexOutOfRange /\
  (String.length (DefaultConf.LogFile (Config.Defaults config)) = 0%nat ->
   halted o = None).
Proof.
  intros o. split; [apply ObserveDiskActivity_keeps|].
  intros Hlog. unfold o, ObserveDiskActivity. do 3 step. rewrite bind_run.
  match goal with |- context [resolveSymlinks config ?m0] =>
    assert (Hr : exists config' m',
              resolveSymlinks config m0 = Ok config' m' /\
              Config.Defaults config' = Config.Defaults config)
  end.
  { unfold resolveSymlinks. case_match; [eauto|].
    apply resolve_loop_no_log; [intros i; apply seq_range|assumption]. }
  destruct Hr as (config' & m1 & -> & Hd).
  rewrite bind_run. rewrite <- Hd in Hlog.
  match goal with |- context [ObserveDiskActivity_loop ?s config' m1] =>
    pose proof (loop_no_log s config' Hlog m1) as Hl;
    destruct (ObserveDiskActivity_loop s config' m1) as [[] m2|h m2]
  end; [|discriminate Hl].
  do 2 step. reflexivity.
Qed.

(** X5: the [now] of a cycle is the reading of the clock taken right after
    the sampler returned, and it is the same for every entry of the
    snapshot; [lastNow] keeps its value throughout the cycle and is set to
    that reading only when the cycle has run to its end. *)
Theorem X5_cycle_clock config m :
  let t := (time_Now (diskstats_Snapshot (world m)).2).1 in
  let o := ObserveDiskActivity config m in
  now (final o) = t /\
  (halted o = None -> lastNow (final o) = t) /\
  (halted o <> None -> lastNow (final o) = lastNow m).
Proof.
  intros t o. unfold o, ObserveDiskActivity. do 3 step. fold t.
  rewrite bind_run.
  match goal with |- context [resolveSymlinks config ?m0] =>
    destruct (resolveSymlinks_spec config m0) as (_ & Hn & Hl & _);
    destruct (resolveSymlinks config m0) as [config' m1|h m1]
  end; cbn [final halted now lastNow] in *.
  2:{ split; [assumption|]. split; [discriminate|now intros _]. }
  rewrite bind_run.
  match goal with |- context [ObserveDiskActivity_loop ?s config' m1] =>
    destruct (loop_evolves s config' m1) as ((Hn2 & Hl2 & _) & _);
    destruct (ObserveDiskActivity_loop s config' m1) as [[] m2|h m2]
  end; cbn [final halted] in *.
  - do 2 step. split; [congruence|]. split; [congruence|]. now intros Hx.
  - split; [congruence|]. split; [discriminate|]. intros _. congruence.
Qed.

(** *** A call in which a suspend is assumed *)

Lemma idleExceeded_afterSleep (t : Time) ds :
  idleExceeded t (afterSleep t ds) <-> DiskStats.IdleTime ds < 0.
Proof.
  unfold idleExceeded. cbn. rewrite Sub_diag. lia.
Qed.

(** X6: in a call in which a suspend is assumed the device is never
    reported as spun up, whatever its flag and counters were: after the
    suspend line the only output is the debug line, except that a device
    with unchanged counters and a negative idle threshold is spun down
    again at once.  The state ends as the reset state, with the counters of
    the entry if they differ. *)
Theorem X6_no_spin_up_after_sleep tmp config m dsi ds m1 :
  previousDiskStatsIndex_loop 0 (previousSnapshots m) (DiskStats.Name tmp)
    = dsi ->
  0 <= dsi -> previousSnapshots m !! Z.to_nat dsi = Some ds ->
  Sub (now m) (lastNow m) > Config.SkewTime config ->
  skewCheck dsi config m = Ok tt m1 ->
  let o := updateState tmp config m in
  let reset := afterSleep (now m) ds in
  let down := spunDownAt (now m) reset in
  let after x new :=
    previousSnapshots (final o) = <[Z.to_nat dsi := x]> (previousSnapshots m)
    /\ trace (final o) = trace m1 ++ new ++ debugLine config (now m) x in
  halted o = None /\
  trace m1 =
    trace m
    ++ logged (DefaultConf.LogFile (Config.Defaults config))
         (TxtSpinupAfterSleep (now m) (DiskStats.Name ds)) /\
  (if sameCountersb ds tmp then
     if DiskStats.IdleTime ds <? 0 then
       after down
         (spindownTrace ("/dev/" +:+ DiskStats.Name ds)
            (DiskStats.CommandType ds) (world m1))
     else after reset []
   else after (withIo (now m) tmp reset) []).
Proof.
  intros Hidx Hpos Hds Hs Hskew o reset down after.
  destruct (skewCheck_inv _ _ _ _ _ Hpos Hds Hskew)
    as (Hn & _ & [(Hq & _)|(_ & Hp & Ht)]); [contradiction|].
  assert (Ho : o = reconcile dsi tmp config m1).
  { unfold o. rewrite (updateState_known _ _ _ _ Hidx) by assumption.
    now rewrite Hskew. }
  assert (Hds1 : previousSnapshots m1 !! Z.to_nat dsi = Some reset).
  { rewrite Hp. eauto using entry_insert. }
  unfold after. rewrite Ho.
  destruct (sameCountersb_spec ds tmp) as [Hsame|Hio].
  - destruct (Z.ltb_spec (DiskStats.IdleTime ds) 0) as [Hneg|Hnn].
    + rewrite (reconcile_fire dsi tmp config m1 reset); try assumption.
      2:{ reflexivity. }
      2:{ unfold reset. rewrite Hn. now apply idleExceeded_afterSleep. }
      cbn [halted final]. unfold withTrace.
      cbn [previousSnapshots trace]. rewrite Hp, Hn, list_insert_insert_eq.
      split; [reflexivity|]. split; [assumption|].
      split; [reflexivity|lists].
    + rewrite (reconcile_idle dsi tmp config m1 reset); try assumption.
      2:{ right. unfold reset. rewrite Hn, idleExceeded_afterSleep. lia. }
      cbn [halted final]. unfold withTrace.
      cbn [previousSnapshots trace]. rewrite Hp, Hn.
      split; [reflexivity|]. split; [assumption|].
      split; reflexivity.
  - rewrite (reconcile_io_running dsi tmp config m1 reset); try assumption.
    2:{ reflexivity. }
    cbn [halted final]. unfold withTrace, withSnapshots.
    cbn [previousSnapshots trace]. rewrite Hp, Hn, list_insert_insert_eq.
    split; [reflexivity|]. split; [assumption|].
    split; reflexivity.
Qed.

(** *** deviceConfig and unresolved overrides *)

Lemma deviceConfig_loop_resolvedOnly devices n :
  String.length n <> 0%nat ->
  deviceConfig_loop (resolvedOnly devices) n = deviceConfig_loop devices n.
Proof.
  intros Hn. unfold resolvedOnly.
  induction devices as [|x l IH]; [reflexivity|].
  cbn [List.filter deviceConfig_loop].
  destruct (Nat.eqb_spec (String.length (DeviceConf.Name x)) 0)
    as [Hz|Hnz]; cbn [negb deviceConfig_loop].
  - destruct (String.eqb_spec (DeviceConf.Name x) n) as [E|E];
      [congruence|assumption].
  - now rewrite IH.
Qed.

(** X7: [deviceConfig] never returns nil and what it returns carries the
    name asked for.  For a name that is not empty, overrides whose
    canonical name is still empty play no part: the answer is the one of
    the configuration without them. *)
Theorem X7_unresolved_overrides_are_inert diskName config :
  exists d,
    deviceConfig diskName config = Some d /\
    DeviceConf.Name d = diskName /\
    (String.length diskName <> 0%nat ->
     deviceConfig diskName
       (Config.set_Devices (resolvedOnly (Config.Devices config)) config)
     = Some d).
Proof.
  unfold deviceConfig. cbn [Config.set_Devices Config.Devices Config.Defaults].
  destruct (deviceConfig_loop (Config.Devices config) diskName) as [d|] eqn:E.
  - exists d. split; [reflexivity|].
    split; [now apply deviceConfig_loop_some in E|].
    intros Hn. now rewrite deviceConfig_loop_resolvedOnly, E.
  - eexists. split; [reflexivity|]. split; [reflexivity|].
    intros Hn. now rewrite deviceConfig_loop_resolvedOnly, E.
Qed.

(** *** A host that resolves every name *)

Lemma resolve_all_filled (path : string -> string) :
  (forall g w, (io_RealPath g w).1 = (path g, None)) ->
  forall rest pre config m,
  Config.Devices config = pre ++ rest ->
  halted (resolveSymlinks_loop (seq (length pre) (length rest)) config m)
    = None ->
  exists config' m',
    resolveSymlinks_loop (seq (length pre) (length rest)) config m
      = Ok config' m' /\
    Config.Devices config' = pre ++ (filled path <$> rest) /\
    Config.Defaults config' = Config.Defaults config /\
    Config.SkewTime config' = Config.SkewTime config.
Proof.
  intros Hpath. induction rest as [|d rest IH]; intros pre config m Hdev Hh.
  - exists config, m. cbn. now rewrite Hdev.
  - cbn [length seq] in *.
    assert (Hd : Config.Devices config !! length pre = Some d).
    { rewrite Hdev. apply list_lookup_middle. reflexivity. }
    assert (Hlen : length (pre ++ [d]) = S (length pre)).
    { rewrite length_app. cbn. lia. }
    destruct (unresolved_dec d) as [Hu|Hn].
    + destruct (io_RealPath (DeviceConf.GivenName d) (world m))
        as [[realPath err] w1] eqn:Hans.
      pose proof (Hpath (DeviceConf.GivenName d) (world m)) as Hp.
      rewrite Hans in Hp. cbn in Hp. injection Hp as -> ->.
      rewrite (resolve_step_success _ _ _ _ _ Hd _ _ Hu Hans) in Hh |- *.
      destruct (logToFile _ _ _) as [[] m2|h m2]; [|discriminate Hh].
      set (config1 := Config.set_Devices _ config) in *.
      assert (Hdev1 : Config.Devices config1
                      = (pre ++ [filled path d]) ++ rest).
      { unfold config1. cbn [Config.set_Devices Config.Devices].
        rewrite Hdev. replace (length pre) with (length pre + 0)%nat by lia.
        rewrite insert_app_r. cbn. rewrite <- app_assoc. cbn.
        unfold filled. unfold unresolved in Hu. now rewrite Hu. }
      assert (Hlen1 : length (pre ++ [filled path d]) = S (length pre)).
      { rewrite length_app. cbn. lia. }
      rewrite <- Hlen1 in Hh |- *.
      destruct (IH _ config1 m2 Hdev1 Hh) as (config' & m' & Hrun & Hd' & Hdf).
      exists config', m'. split; [assumption|]. split; [|exact Hdf].
      rewrite Hd', <- app_assoc. reflexivity.
    + rewrite (resolve_step_resolved _ _ _ _ _ Hd Hn) in Hh |- *.
      assert (Hdev1 : Config.Devices config = (pre ++ [d]) ++ rest).
      { now rewrite Hdev, <- app_assoc. }
      rewrite <- Hlen in Hh |- *.
      destruct (IH _ config m Hdev1 Hh) as (config' & m' & Hrun & Hd' & Hdf).
      exists config', m'. split; [assumption|]. split; [|exact Hdf].
      rewrite Hd', <- app_assoc. cbn. unfold filled at 2.
      destruct (Nat.eqb_spec (String.length (DeviceConf.Name d)) 0);
        [contradiction|reflexivity].
Qed.

(** X8: with the symlink policy enabled, on a host whose [io.RealPath]
    always succeeds, a run of [resolveSymlinks] that no log failure stops
    fills every empty canonical name with the path of its given name and
    changes nothing else; if those paths are not empty, running it again on
    the result changes nothing and puts nothing out. *)
Theorem X8_resolution_reaches_a_fixed_point
    (path : string -> string) config m :
  DefaultConf.SymlinkPolicy (Config.Defaults config) <> 0 ->
  (forall g w, (io_RealPath g w).1 = (path g, None)) ->
  halted (resolveSymlinks config m) = None ->
  exists config' m',
    resolveSymlinks config m = Ok config' m' /\
    Config.Devices config' = filled path <$> Config.Devices config /\
    Config.Defaults config' = Config.Defaults config /\
    Config.SkewTime config' = Config.SkewTime config /\
    ((forall d, d ∈ Config.Devices config ->
        String.length (DeviceConf.Name d) = 0%nat ->
        String.length (path (DeviceConf.GivenName d)) <> 0%nat) ->
     forall m2, resolveSymlinks config' m2 = Ok config' m2).
Proof.
  intros Hpol Hpath Hh. unfold resolveSymlinks in Hh |- *.
  destruct (Z.eqb_spec (DefaultConf.SymlinkPolicy (Config.Defaults config)) 0)
    as [|_]; [contradiction|].
  destruct (resolve_all_filled path Hpath (Config.Devices config) [] config m
              eq_refl Hh) as (config' & m' & Hrun & Hd & Hdf & Hsk).
  exists config', m'. cbn [length app] in *.
  split; [assumption|]. split; [assumption|]. split; [assumption|].
  split; [assumption|].
  intros Hne m2. unfold resolveSymlinks. case_match; [reflexivity|].
  apply resolve_loop_all_resolved; [intros i; apply seq_range|].
  intros d' Hin. rewrite Hd in Hin.
  apply list_elem_of_fmap in Hin as (d & -> & Hd0).
  unfold unresolved, filled.
  destruct (Nat.eqb_spec (String.length (DeviceConf.Name d)) 0) as [Hz|Hnz];
    [|assumption].
  cbn. now apply Hne.
Qed.

(** *** A pass over a whole snapshot *)

Lemma index_names_missing l n :
  n ∉ names l -> previousDiskStatsIndex_loop 0 l n < 0.
Proof.
  intros Hn. destruct (index_loop_range l 0 n) as [Hm|Hr]; [lia|].
  exfalso. apply Hn.
  destruct (index_found l n _ eq_refl ltac:(lia)) as (d & Hd & Hdn & _).
  unfold names. apply list_elem_of_fmap. exists d.
  split; [auto|]. eapply list_elem_of_lookup_2; eauto.
Qed.

(** X9: a pass over a snapshot whose names are pairwise distinct and all
    untracked always runs to its end, puts nothing out and appends one
    state per entry, in the order of the snapshot, each with the name and
    counters of its entry and spun_down = false. *)
Theorem X9_first_pass_tracks_every_device snapshot config m :
  NoDup (names snapshot) ->
  (forall tmp, tmp ∈ snapshot ->
     DiskStats.Name tmp ∉ names (previousSnapshots m)) ->
  exists news m',
    ObserveDiskActivity_loop snapshot config m = Ok tt m' /\
    previousSnapshots m' = previousSnapshots m ++ news /\
    Forall2 freshFrom snapshot news /\
    trace m' = trace m /\ now m' = now m /\ lastNow m' = lastNow m.
Proof.
  revert m. induction snapshot as [|tmp rest IH]; intros m Hnd Hnew.
  - exists [], m. cbn. rewrite app_nil_r. repeat split; constructor.
  - rewrite loop_cons. unfold names in Hnd. cbn in Hnd.
    apply NoDup_cons in Hnd as (Hhead & Hnd).
    rewrite updateState_new
      by (apply index_names_missing, Hnew; left).
    match goal with |- context [created tmp config ?a ?b] =>
      set (c := created tmp config a b)
    end.
    assert (Hc : freshFrom tmp c).
    { unfold c. match goal with |- context [created tmp config ?a ?b] =>
        destruct (created_spec tmp config a b) as (dc & _ & ->) end.
      now repeat split. }
    match goal with |- context [ObserveDiskActivity_loop rest config ?m1] =>
      destruct (IH m1 Hnd) as (news & m' & Hrun & Hp & Hf & Ht & Hn & Hl)
    end.
    { intros e He. cbn [previousSnapshots]. unfold names.
      rewrite fmap_app. cbn. intros Hin.
      apply elem_of_app in Hin as [Hin|Hin].
      - apply (Hnew e); [now right|exact Hin].
      - apply list_elem_of_singleton in Hin. destruct Hc as (Hcn & _).
        apply Hhead. rewrite <- Hcn, <- Hin.
        apply list_elem_of_fmap. eauto. }
    exists (c :: news), m'. split; [assumption|].
    cbn [previousSnapshots trace now lastNow] in *.
    split; [rewrite Hp, <- app_assoc; reflexivity|].
    split; [now constructor|auto].
Qed.

Lemma counters_reconciled (t : Time) tmp ds :
  DiskStats.Reads (reconciled t tmp ds) = DiskStats.Reads tmp /\
  DiskStats.Writes (reconciled t tmp ds) = DiskStats.Writes tmp.
Proof.
  unfold reconciled.
  destruct (sameCountersb_spec ds tmp) as [(Hw & Hr)|_].
  - case_match; cbn; auto.
  - cbn. auto.
Qed.

Lemma firstNamed_index l n k ds :
  firstNamed l n k ds ->
  previousDiskStatsIndex_loop 0 l n = Z.of_nat k.
Proof. intros (Hk & Hn & Hf). now apply (index_first l n k ds). Qed.

Lemma firstNamed_kept (P : string -> Prop) l l' n k ds :
  keepsStates P l l' -> firstNamed l n k ds -> ~ P n ->
  firstNamed l' n k ds.
Proof.
  intros Hkeep (Hk & Hn & Hf) HP. split; [|split; [assumption|]].
  - destruct (Hkeep _ _ Hk) as (d' & Hd' & _ & Heq).
    rewrite Hd'. f_equal. apply Heq. now rewrite Hn.
  - intros j d Hj Hd.
    destruct (lookup_lt_is_Some_2 l j) as [d0 Hd0].
    { apply lookup_lt_Some in Hk. lia. }
    destruct (Hkeep _ _ Hd0) as (d' & Hd' & (Hnm & _) & _).
    rewrite Hd in Hd'. injection Hd' as <-. rewrite Hnm. eauto.
Qed.

(** After a call that ran to its end the first state with the name of the
    entry carries the counters of the entry. *)
Lemma updateState_firstNamed tmp config m :
  halted (updateState tmp config m) = None ->
  exists k ds',
    firstNamed (previousSnapshots (final (updateState tmp config m)))
      (DiskStats.Name tmp) k ds' /\
    DiskStats.Reads ds' = DiskStats.Reads tmp /\
    DiskStats.Writes ds' = DiskStats.Writes tmp.
Proof.
  intros Hh.
  destruct (Z_lt_dec (previousDiskStatsIndex_loop 0 (previousSnapshots m)
                        (DiskStats.Name tmp)) 0) as [Hneg|Hpos].
  - rewrite updateState_new by assumption. cbn [final previousSnapshots].
    match goal with |- context [created tmp config ?a ?b] =>
      destruct (created_spec tmp config a b) as (dc & _ & ->)
    end.
    eexists (length (previousSnapshots m)), _.
    split; [split; [now apply list_lookup_middle|]|split; reflexivity].
    split; [reflexivity|].
    intros j d Hj Hd. rewrite lookup_app_l in Hd by assumption.
    eapply index_loop_missing; [|exact Hneg|exact Hd]. lia.
  - apply Z.nlt_ge in Hpos.
    destruct (index_found _ _ _ eq_refl Hpos) as (ds & Hds & Hname & Hfirst).
    destruct (updateState_states tmp config m _ ds eq_refl Hpos Hds)
      as (_ & Hok & _).
    rewrite (Hok Hh).
    eexists _, (nextState config m tmp ds).
    split; [|apply counters_reconciled].
    split; [eauto using entry_insert|]. split.
    + unfold nextState. now rewrite name_reconciled, name_seen.
    + intros j d Hj Hd. rewrite list_lookup_insert_ne in Hd by lia.
      eauto.
Qed.

(** X10: after a pass that ran to its end over a snapshot with pairwise
    distinct names, every device of the snapshot is tracked, and the state
    [previousDiskStatsIndex] finds for it carries exactly the reads and
    writes of its entry. *)
Theorem X10_states_mirror_the_snapshot snapshot config m :
  NoDup (names snapshot) ->
  let o := ObserveDiskActivity_loop snapshot config m in
  halted o = None ->
  forall tmp, tmp ∈ snapshot ->
  exists (k : nat) ds',
    previousDiskStatsIndex_loop 0 (previousSnapshots (final o))
      (DiskStats.Name tmp) = Z.of_nat k /\
    previousSnapshots (final o) !! k = Some ds' /\
    DiskStats.Name ds' = DiskStats.Name tmp /\
    DiskStats.Reads ds' = DiskStats.Reads tmp /\
    DiskStats.Writes ds' = DiskStats.Writes tmp.
Proof.
  intros Hnd o Hh tmp Hin.
  assert (Hmain : exists k ds',
            firstNamed (previousSnapshots (final o)) (DiskStats.Name tmp)
              k ds' /\
            DiskStats.Reads ds' = DiskStats.Reads tmp /\
            DiskStats.Writes ds' = DiskStats.Writes tmp).
  { unfold o in *. clear o. revert m Hh.
    induction snapshot as [|e rest IH]; intros m Hh;
      [now apply elem_of_nil in Hin|].
    unfold names in Hnd. cbn in Hnd.
    apply NoDup_cons in Hnd as (Hhead & Hnd).
    rewrite loop_cons in Hh |- *.
    pose proof (updateState_firstNamed e config m) as Hfirst.
    destruct (updateState e config m) as [[] m1|h m1]; [|discriminate Hh].
    cbn [final halted] in Hfirst.
    apply elem_of_cons in Hin as [->|Hin].
    - destruct (Hfirst eq_refl) as (k & ds' & Hf & Hc).
      exists k, ds'. split; [|exact Hc].
      destruct (loop_evolves rest config m1) as ((_ & _ & Hkeep & _) & _).
      eapply firstNamed_kept; [exact Hkeep|exact Hf|].
      intros (e' & He' & Hn). apply Hhead.
      rewrite <- Hn. apply list_elem_of_fmap. eauto.
    - now apply IH. }
  destruct Hmain as (k & ds' & Hf & Hr & Hw).
  exists k, ds'. split; [now apply (firstNamed_index _ _ _ ds')|].
  destruct Hf as (Hk & Hn & _). auto.
Qed.

(** *** Where the output goes *)

Lemma logToFile_output file text m :
  exists new,
    trace (final (logToFile file text m)) = trace m ++ new /\
    Forall (toLogFile file) new.
Proof.
  destruct (Nat.eq_dec (String.length file) 0%nat) as [Hz|Hnz].
  - rewrite logToFile_no_file by assumption. exists [].
    split; [now rewrite app_nil_r|constructor].
  - destruct (logToFile_final file text m) as (_ & _ & _ & [Ht|Ht] & _).
    + exists []. split; [now rewrite app_nil_r|constructor].
    + eexists. split; [exact Ht|]. repeat constructor. assumption.
Qed.

Lemma toLogFile_debugLine file config (t : Time) ds :
  Forall (toLogFile file) (debugLine config t ds).
Proof. unfold debugLine. case_match; repeat constructor. Qed.

Lemma toLogFile_spindownTrace file device command w :
  Forall (toLogFile file) (spindownTrace device command w).
Proof.
  unfold spindownTrace, stopCall. constructor; [exact I|].
  apply Forall_app. split; repeat case_match; repeat constructor.
Qed.

Lemma skewCheck_output dsi config m ds :
  0 <= dsi -> previousSnapshots m !! Z.to_nat dsi = Some ds ->
  exists new,
    trace (final (skewCheck dsi config m)) = trace m ++ new /\
    Forall (toLogFile (DefaultConf.LogFile (Config.Defaults config))) new.
Proof.
  intros Hi Hds. destruct (skewed_dec config m) as [Hs|Hq].
  - rewrite (skewCheck_fires _ _ _ ds) by assumption.
    match goal with |- context [logToFile ?f ?x ?y] =>
      destruct (logToFile_output f x y) as (new & Ht & Hf)
    end.
    exists new. split; [exact Ht|exact Hf].
  - rewrite skewCheck_quiet by assumption. exists [].
    split; [now rewrite app_nil_r|constructor].
Qed.

Lemma reconcile_output dsi tmp config m ds :
  0 <= dsi -> previousSnapshots m !! Z.to_nat dsi = Some ds ->
  exists new,
    trace (final (reconcile dsi tmp config m)) = trace m ++ new /\
    Forall (toLogFile (DefaultConf.LogFile (Config.Defaults config))) new.
Proof.
  intros Hi Hds. set (file := DefaultConf.LogFile (Config.Defaults config)).
  destruct (sameCounters_dec ds tmp) as [Hsame|Hio].
  - destruct (DiskStats.SpunDown ds) eqn:Hflag.
    + rewrite (reconcile_idle dsi tmp config m ds) by auto.
      eexists. split; [reflexivity|apply toLogFile_debugLine].
    + destruct (idleExceeded_dec (now m) ds) as [Hf|Hnf].
      * rewrite (reconcile_fire dsi tmp config m ds) by assumption.
        eexists. split; [cbn; rewrite <- app_assoc; reflexivity|].
        apply Forall_app. split;
          [apply toLogFile_spindownTrace|apply toLogFile_debugLine].
      * rewrite (reconcile_idle dsi tmp config m ds) by auto.
        eexists. split; [reflexivity|apply toLogFile_debugLine].
  - destruct (DiskStats.SpunDown ds) eqn:Hflag.
    + rewrite (reconcile_io_stopped dsi tmp config m ds) by assumption.
      match goal with |- context [logToFile ?f ?x ?y] =>
        destruct (logToFile_output f x y) as (new & Ht & Hf);
        destruct (logToFile f x y) as [[] m2|h m2]
      end; cbn [final trace withTrace withSnapshots] in *; rewrite Ht.
      * eexists. split; [rewrite <- !app_assoc; reflexivity|].
        constructor; [exact I|]. apply Forall_app.
        split; [assumption|apply toLogFile_debugLine].
      * eexists. split; [rewrite <- !app_assoc; reflexivity|].
        constructor; [exact I|assumption].
    + rewrite (reconcile_io_running dsi tmp config m ds) by assumption.
      eexists. split; [reflexivity|apply toLogFile_debugLine].
Qed.

Lemma updateState_output tmp config m :
  exists new,
    trace (final (updateState tmp config m)) = trace m ++ new /\
    Forall (toLogFile (DefaultConf.LogFile (Config.Defaults config))) new.
Proof.
  destruct (Z_lt_dec (previousDiskStatsIndex_loop 0 (previousSnapshots m)
                        (DiskStats.Name tmp)) 0) as [Hneg|Hpos].
  - rewrite updateState_new by assumption. exists [].
    split; [cbn; now rewrite app_nil_r|constructor].
  - apply Z.nlt_ge in Hpos.
    destruct (index_found _ _ _ eq_refl Hpos) as (ds & Hds & _).
    rewrite (updateState_known _ _ _ _ eq_refl) by assumption.
    set (dsi := previousDiskStatsIndex_loop _ _ _) in *.
    destruct (skewCheck_output dsi config m ds Hpos Hds) as (new1 & Ht1 & Hf1).
    destruct (skewCheck_evolves dsi config m ds Hpos Hds)
      as ((_ & _ & Hk & _) & _).
    destruct (skewCheck dsi config m) as [[] m1|h m1]; cbn [final] in *;
      [|eauto].
    destruct (Hk _ _ Hds) as (ds1 & Hds1 & _).
    destruct (reconcile_output dsi tmp config m1 ds1 Hpos Hds1)
      as (new2 & Ht2 & Hf2).
    exists (new1 ++ new2). split; [rewrite Ht2, Ht1; lists|].
    now apply Forall_app.
Qed.

Lemma loop_output snapshot config m :
  exists new,
    trace (final (ObserveDiskActivity_loop snapshot config m))
      = trace m ++ new /\
    Forall (toLogFile (DefaultConf.LogFile (Config.Defaults config))) new.
Proof.
  revert m. induction snapshot as [|tmp rest IH]; intros m.
  - exists []. split; [cbn; now rewrite app_nil_r|constructor].
  - rewrite loop_cons.
    destruct (updateState_output tmp config m) as (new1 & Ht1 & Hf1).
    destruct (updateState tmp config m) as [[] m1|h m1]; cbn [final] in *;
      [|eauto].
    destruct (IH m1) as (new2 & Ht2 & Hf2).
    exists (new1 ++ new2). split; [rewrite Ht2, Ht1; lists|].
    now apply Forall_app.
Qed.

Lemma resolve_loop_output range :
  forall config m,
  (forall i : nat, i ∈ range -> (i < length (Config.Devices config))%nat) ->
  exists new,
    trace (final (resolveSymlinks_loop range config m)) = trace m ++ new /\
    Forall (toLogFile (DefaultConf.LogFile (Config.Defaults config))) new.
Proof.
  induction range as [|i rest IH]; intros config m Hrange.
  - exists []. split; [cbn; now rewrite app_nil_r|constructor].
  - destruct (lookup_lt_is_Some_2 (Config.Devices config) i)
      as (device & Hdev); [apply Hrange; left|].
    assert (Hrest : forall j : nat, j ∈ rest ->
              (j < length (Config.Devices config))%nat).
    { intros j Hj. apply Hrange. now right. }
    destruct (unresolved_dec device) as [Hu|Hn].
    2:{ rewrite (resolve_step_resolved _ _ _ _ _ Hdev Hn). now apply IH. }
    destruct (io_RealPath (DeviceConf.GivenName device) (world m))
      as [[realPath [e|]] w1] eqn:Hans.
    + rewrite (resolve_step_failure _ _ _ _ _ Hdev _ _ _ Hu Hans).
      match goal with |- context [resolveSymlinks_loop rest config ?m0] =>
        destruct (IH config m0 Hrest) as (new & Ht & Hf)
      end.
      cbn [trace] in Ht. eexists.
      split; [rewrite Ht, <- app_assoc; reflexivity|].
      constructor; [exact I|]. apply Forall_app. split; [|assumption].
      unfold diagnostic. case_match; repeat constructor.
    + rewrite (resolve_step_success _ _ _ _ _ Hdev _ _ Hu Hans).
      match goal with |- context [logToFile ?f ?x ?y] =>
        destruct (logToFile_output f x y) as (new1 & Ht1 & Hf1);
        destruct (logToFile f x y) as [[] m2|h m2]
      end; cbn [final trace] in *.
      * match goal with |- context [resolveSymlinks_loop rest ?c m2] =>
          destruct (IH c m2) as (new2 & Ht2 & Hf2)
        end.
        { intros j Hj. cbn. rewrite length_insert. auto. }
        cbn [Config.set_Devices Config.Defaults] in Hf2.
        eexists. split; [rewrite Ht2, Ht1, <- !app_assoc; reflexivity|].
        constructor; [exact I|]. now apply Forall_app.
      * eexists. split; [rewrite Ht1, <- !app_assoc; reflexivity|].
        constructor; [exact I|assumption].
Qed.

(** X11: whatever a cycle writes to a file it writes to the configured log
    file; with no log file configured a cycle writes to no file at all. *)
Theorem X11_file_output_goes_to_the_log_file config m :
  let file := DefaultConf.LogFile (Config.Defaults config) in
  exists new,
    trace (final (ObserveDiskActivity config m)) = trace m ++ new /\
    Forall (toLogFile file) new /\
    (String.length file = 0%nat -> forall f t, FileLine f t ∉ new).
Proof.
  intros file.
  assert (Hmain : exists new,
            trace (final (ObserveDiskActivity config m)) = trace m ++ new /\
            Forall (toLogFile file) new).
  { unfold ObserveDiskActivity. do 3 step. rewrite bind_run.
    match goal with |- context [resolveSymlinks config ?m0] =>
      assert (Hr : exists new,
                trace (final (resolveSymlinks config m0)) = trace m0 ++ new
                /\ Forall (toLogFile file) new);
      [|destruct (resolveSymlinks_spec config m0)
          as (_ & _ & _ & _ & _ & Hres);
        destruct (resolveSymlinks config m0) as [config' m1|h m1]]
    end.
    { unfold resolveSymlinks. case_match.
      - exists []. split; [cbn; now rewrite app_nil_r|constructor].
      - apply resolve_loop_output. intros i. apply seq_range. }
    - destruct Hr as (new1 & Ht1 & Hf1). cbn [final trace] in *.
      destruct (Hres _ _ eq_refl) as (Hd & _).
      rewrite bind_run.
      match goal with |- context [ObserveDiskActivity_loop ?s config' m1] =>
        destruct (loop_output s config' m1) as (new2 & Ht2 & Hf2);
        destruct (ObserveDiskActivity_loop s config' m1) as [[] m2|h m2]
      end; cbn [final] in *; rewrite Hd in Hf2; fold file in Hf2.
      + do 2 step. exists (new1 ++ new2).
        split; [rewrite Ht2, Ht1; lists|now apply Forall_app].
      + exists (new1 ++ new2).
        split; [rewrite Ht2, Ht1; lists|now apply Forall_app].
    - destruct Hr as (new1 & Ht1 & Hf1). cbn [final trace] in *. eauto. }
  destruct Hmain as (new & Ht & Hf). exists new.
  split; [assumption|]. split; [assumption|].
  intros Hz f t Hin. rewrite Forall_forall in Hf.
  destruct (Hf _ Hin) as (_ & Hnz). contradiction.
Qed.

(** X12: in a pass over a snapshot every call of a stop capability is for
    the device of an entry of that snapshot: its argument is "/dev/"
    followed by the name of the entry. *)
Theorem X12_stop_calls_are_for_snapshot_devices snapshot config m :
  exists new,
    trace (final (ObserveDiskActivity_loop snapshot config m))
      = trace m ++ new /\
    forall device,
      CallStopScsi device ∈ new \/ CallStopAta device ∈ new ->
      exists tmp, tmp ∈ snapshot /\
        device = "/dev/" +:+ DiskStats.Name tmp.
Proof.
  destruct (loop_evolves snapshot config m)
    as ((_ & _ & _ & new & Ht & Hf) & _).
  exists new. split; [assumption|].
  rewrite Forall_forall in Hf.
  intros device [Hin|Hin]; destruct (Hf _ Hin) as (n & (tmp & Htmp & <-) & Ha);
    cbn in Ha; eauto.
Qed.

End Run.

(** ** The claims on the example installation *)

(** "sda", idle for 3 s with a threshold of 2 s, is spun down. *)
Lemma C1_witness :
  previousSnapshots
    (final (updateState (Example.entry "sda" 10 5) Example.cfg Example.m3))
  = [DiskStats.set_SpunDown true
       (DiskStats.set_SpinDownAt (3 * Example.second) Example.sda)].
Proof.
  destruct (C1_spin_down_iff_idle_exceeded (Example.entry "sda" 10 5)
              Example.cfg Example.m3 0 Example.m3 Example.sda)
    as (_ & Hfire & _).
  - reflexivity.
  - lia.
  - reflexivity.
  - reflexivity.
  - reflexivity.
  - reflexivity.
  - reflexivity.
  - destruct Hfire as (Hp & _).
    + split; [vm_compute; discriminate|reflexivity].
    + exact Hp.
Defined.

(** "sda", spun down at 10 s, is left alone by an entry with its counters. *)
Lemma C2_witness :
  previousSnapshots
    (final (ObserveDiskActivity_loop [Example.entry "sda" 10 5] Example.cfg
              Example.m15)) !! 0%nat
  = Some Example.sdaDown.
Proof.
  refine (proj1 (C2_no_repeated_spin_down [Example.entry "sda" 10 5]
                   Example.cfg Example.m15 0 Example.sdaDown _ _ _ _ _)).
  - reflexivity.
  - intros j d Hj. lia.
  - reflexivity.
  - vm_compute. discriminate.
  - intros tmp Hin _. apply list_elem_of_singleton in Hin as ->.
    split; reflexivity.
Defined.

(** After 986 s without a cycle, "sdb" is reset when its entry comes. *)
Lemma C3_witness :
  previousSnapshots (final (skewCheck 1 Example.cfgLog Example.woken))
  = [Example.sdaDown;
     DiskStats.set_SpunDown false
       (DiskStats.set_LastIoAt (1000 * Example.second)
          (DiskStats.set_SpinUpAt (1000 * Example.second) Example.sdb))].
Proof.
  refine (proj1 (C3_skew_resets_named_devices (Example.entry "sdb" 7 7)
                   Example.cfgLog Example.woken 1 Example.sdb _ _ _ _)).
  - reflexivity.
  - lia.
  - reflexivity.
  - reflexivity.
Defined.

(** The stop command of "sda" fails with "I/O error"; "sda" is marked spun
    down all the same. *)
Lemma C4_witness :
  previousSnapshots
    (final (updateState (Example.entry "sda" 10 5) Example.cfg Example.m3))
  = [DiskStats.set_SpunDown true
       (DiskStats.set_SpinDownAt (3 * Example.second) Example.sda)].
Proof.
  refine (proj1 (proj2 (C4_transition_regardless_of_stop_result
                          (Example.entry "sda" 10 5) Example.cfg Example.m3
                          0 Example.m3 Example.sda (Some "I/O error")
                          (world Example.m3) _ _ _ _ _ _ _ _ _ _))).
  - reflexivity.
  - lia.
  - reflexivity.
  - reflexivity.
  - reflexivity.
  - reflexivity.
  - reflexivity.
  - vm_compute. discriminate.
  - reflexivity.
  - reflexivity.
Defined.

(** "sda", spun down at 10 s, shows new reads at 15 s. *)
Lemma C5_witness :
  trace
    (final (updateState (Example.entry "sda" 12 5) Example.cfgLog
              Example.m15))
  = [Console ("sda spinup" +:+ nl);
     FileLine "/var/log/hd-idle.log"
       (TxtSpinup (15 * Example.second) "sda" (10 * Example.second)
          (5 * Example.second))].
Proof.
  destruct (C5_counter_change (Example.entry "sda" 12 5) Example.cfgLog
              Example.m15 0 Example.m15 Example.sdaDown)
    as (_ & Hdown).
  - reflexivity.
  - lia.
  - reflexivity.
  - reflexivity.
  - intros [_ Hr]. discriminate Hr.
  - destruct (Hdown eq_refl) as (_ & _ & Hok).
    destruct (Hok eq_refl) as (_ & Ht). exact Ht.
Defined.

(** The first sighting of "sda" with a clock that shows 100, 101, ... *)
Lemma C6_witness :
  updateState (Example.entry "sda" 10 5) Example.cfg Example.fresh
  = Ok tt
      (mkMachine
         [DiskStats.mk "sda" (2 * Example.second) SCSI 10 5 zeroTime 101 100
            false]
         0 0 (Script.advance (Script.advance (world Example.fresh))) []).
Proof.
  refine (proj1 (C6_first_sighting (Example.entry "sda" 10 5) Example.cfg
                   Example.fresh _)).
  reflexivity.
Defined.

(** "nvme" is neither "scsi" nor "ata". *)
Lemma C10_witness :
  spindownDisk "/dev/sdx" "nvme" Example.mx
  = Ok None (withTrace [Console ("/dev/sdx spindown" +:+ nl)] Example.mx).
Proof.
  refine (proj1 (C10_unrecognized_command_type "nvme" _ _) "/dev/sdx"
            Example.mx).
  - discriminate.
  - discriminate.
Defined.

(** C3, as stated, fails: the cycle that follows a sleep of 986 s, with a
    skew time of 120 s, leaves the tracked device "sda", which the snapshot
    does not name, spun down with its old timestamps, and writes a suspend
    line for "sdb" only. *)
Lemma C3_counterexample :
  let o := ObserveDiskActivity Example.cfgLog Example.asleep in
  let t := now (final o) in
  halted o = None /\
  Sub t (lastNow Example.asleep) > Config.SkewTime Example.cfgLog /\
  Example.sdaDown ∈ previousSnapshots Example.asleep /\
  ~ (forall ds, ds ∈ previousSnapshots (final o) ->
       DiskStats.SpinUpAt ds = t /\ DiskStats.LastIoAt ds = t /\
       DiskStats.SpunDown ds = false) /\
  trace (final o)
  = [FileLine "/var/log/hd-idle.log" (TxtSpinupAfterSleep t "sdb")].
Proof.
  cbv zeta. split; [reflexivity|]. split; [reflexivity|].
  split; [left|]. split; [|reflexivity].
  intros Hall. destruct (Hall Example.sdaDown) as (_ & _ & Hflag).
  - apply list_elem_of_In. vm_compute. left. reflexivity.
  - discriminate Hflag.
Qed.

(** C5, as stated, fails: the line written when "sda" spins up gives
    spin_down_at - spin_up_at (10 s) as the time running and
    now - spin_down_at (5 s) as the time stopped, not the other way
    round. *)
Lemma C5_counterexample :
  let o :=
    updateState (Example.entry "sda" 12 5) Example.cfgLog Example.m15 in
  let ds := Example.sdaDown in
  let t := now Example.m15 in
  trace (final o)
  = [Console ("sda spinup" +:+ nl);
     FileLine "/var/log/hd-idle.log"
       (TxtSpinup t "sda"
          (Sub (DiskStats.SpinDownAt ds) (DiskStats.SpinUpAt ds))
          (Sub t (DiskStats.SpinDownAt ds)))] /\
  ~ (exists t' : Time,
       In (FileLine "/var/log/hd-idle.log"
             (TxtSpinup t' "sda"
                (Sub t (DiskStats.SpinDownAt ds))
                (Sub (DiskStats.SpinDownAt ds) (DiskStats.SpinUpAt ds))))
          (trace (final o))).
Proof.
  cbv zeta. split; [reflexivity|].
  intros (t' & Hin). vm_compute in Hin.
  destruct Hin as [Hin|[Hin|[]]]; discriminate Hin.
Qed.

(** C6, as stated, fails: in a cycle whose [now] is 100 the state created
    for "sda" has last_io_at = 101 and spin_up_at = 102, the next two
    readings of the clock. *)
Lemma C6_counterexample :
  let o := ObserveDiskActivity Example.cfg Example.fresh in
  halted o = None /\
  now (final o) = 100 /\
  previousSnapshots (final o)
  = [DiskStats.mk "sda" (2 * Example.second) SCSI 10 5 zeroTime 102 101
       false] /\
  ~ (exists d, previousSnapshots (final o) = [d] /\
       DiskStats.LastIoAt d = now (final o) /\
       DiskStats.SpinUpAt d = now (final o)).
Proof.
  cbv zeta. split; [reflexivity|]. split; [reflexivity|].
  split; [reflexivity|].
  intros (d & Hd & Hl & _). vm_compute in Hd. injection Hd as <-.
  vm_compute in Hl. discriminate Hl.
Qed.

(** ** The further facts on the example installation *)

Lemma X1_witness :
  previousSnapshots
    (final (updateState (Example.entry "sda" 10 5) Example.cfg Example.m3))
  = [nextState Example.cfg Example.m3 (Example.entry "sda" 10 5)
       Example.sda].
Proof.
  refine (proj1 (proj2 (X1_updateState_is_nextState
                          (Example.entry "sda" 10 5) Example.cfg Example.m3
                          0 Example.sda _ _ _)) _).
  - reflexivity.
  - lia.
  - reflexivity.
  - reflexivity.
Defined.

Lemma X2_witness :
  Forall justified
    (previousSnapshots
       (final (ObserveDiskActivity Example.cfgLog Example.asleep))).
Proof.
  refine (proj1 (X2_spun_down_is_justified Example.cfgLog Example.asleep _)).
  constructor; [|constructor; [|constructor]].
  - intros _. split; [vm_compute; discriminate|reflexivity].
  - intros Hflag. discriminate Hflag.
Defined.

Lemma X3_witness :
  NoDup
    (names
       (previousSnapshots
          (final (ObserveDiskActivity Example.cfgLog Example.asleep)))).
Proof.
  refine (X3_names_stay_distinct Example.cfgLog Example.asleep _).
  apply NoDup_cons. split; [|apply NoDup_singleton].
  intros Hin. apply list_elem_of_singleton in Hin. discriminate Hin.
Defined.

Lemma X6_witness :
  halted (updateState (Example.entry "sda" 12 5) Example.cfg Example.woken)
  = None.
Proof.
  refine (proj1 (X6_no_spin_up_after_sleep (Example.entry "sda" 12 5)
                   Example.cfg Example.woken 0 Example.sdaDown
                   (final (skewCheck 0 Example.cfg Example.woken))
                   _ _ _ _ _)).
  - reflexivity.
  - lia.
  - reflexivity.
  - reflexivity.
  - reflexivity.
Defined.

Lemma X8_witness :
  exists config' m',
    resolveSymlinks Example.cfgLink Links.start = Ok config' m' /\
    Config.Devices config'
    = [DeviceConf.mk "/dev/sdb" "/dev/disk/by-label/backup" Example.second
         ATA].
Proof.
  destruct (X8_resolution_reaches_a_fixed_point (fun _ => "/dev/sdb")
              Example.cfgLink Links.start)
    as (config' & m' & Hrun & Hd & _).
  - vm_compute. discriminate.
  - reflexivity.
  - reflexivity.
  - exists config', m'. split; [exact Hrun|exact Hd].
Defined.

Lemma X9_witness :
  exists news m',
    ObserveDiskActivity_loop
      [Example.entry "sda" 10 5; Example.entry "sdb" 7 7] Example.cfg
      Example.fresh = Ok tt m' /\
    previousSnapshots m' = news.
Proof.
  destruct (X9_first_pass_tracks_every_device
              [Example.entry "sda" 10 5; Example.entry "sdb" 7 7]
              Example.cfg Example.fresh)
    as (news & m' & Hrun & Hp & _).
  - apply NoDup_cons. split; [|apply NoDup_singleton].
    intros Hin. apply list_elem_of_singleton in Hin. discriminate Hin.
  - intros tmp _ Hin. now apply elem_of_nil in Hin.
  - exists news, m'. split; [exact Hrun|exact Hp].
Defined.

Lemma X10_witness :
  exists (k : nat) ds',
    previousSnapshots
      (final (ObserveDiskActivity_loop [Example.entry "sda" 12 5]
                Example.cfg Example.m15)) !! k = Some ds' /\
    DiskStats.Reads ds' = 12.
Proof.
  destruct (X10_states_mirror_the_snapshot [Example.entry "sda" 12 5]
              Example.cfg Example.m15)
    with (tmp := Example.entry "sda" 12 5)
    as (k & ds' & _ & Hk & _ & Hr & _).
  - apply NoDup_singleton.
  - reflexivity.
  - left.
  - exists k, ds'. split; [exact Hk|exact Hr].
Defined.
